(** * Article-Summary: extraction and extractive summarisation (app.py)

    A shallow embedding of the request handler of [app.py]:
    - [PyStr]: the string primitives the program uses ([str.strip],
      [str.lower], slicing, [" ".join], and the three regular expressions
      of the file, each written out as the scanner it denotes);
    - [Dict]: Python's insertion-ordered dictionaries;
    - [Heapq]: [heapq.nlargest] with a key function;
    - [Summarizer]: [textrank_summarize];
    - [Soup]: the parsed document tree and the part of
      [extract_article_text] that works on it;
    - [Endpoint]: the fetch, [hf_summarize] and [api_summarize].

    The properties follow the definitions: [SummarizerSpec],
    [ExtractorSpec] and [EndpointSpec], each after the lemmas it needs,
    and further ones in [SummarizerExtra], [ExtractorExtra] and
    [EndpointExtra].

    Python [str] values are modelled by [string]; a character is a code
    point below 256, classified as Python classifies it ([str.isspace],
    [str.lower]).  Python integers are [Z]. *)

From Stdlib Require Import ZArith NArith List String Ascii Bool Lia.
From Stdlib Require Import Permutation Sorted.
Import ListNotations.

Set Warnings "-register-all".

Local Open Scope string_scope.
Local Open Scope Z_scope.
Local Open Scope list_scope.

(* ================================================================== *)
(** ** Strings and the regular expressions of the program *)
(* ================================================================== *)

Module PyStr.

Definition code (c : ascii) : N := N_of_ascii c.

Definition between (lo hi : N) (c : ascii) : bool :=
  (N.leb lo (code c) && N.leb (code c) hi)%bool.

(** [\s] of a [str] pattern and [str.isspace]: TAB..CR, FS..US, space,
    NEL and NBSP. *)
Definition isspace (c : ascii) : bool :=
  (between 9 13 c || between 28 32 c
   || N.eqb (code c) 133 || N.eqb (code c) 160)%bool.

(** [[a-zA-Z]] *)
Definition isalpha (c : ascii) : bool :=
  (between 65 90 c || between 97 122 c)%bool.

(** [[.!?]] *)
Definition isterm (c : ascii) : bool :=
  (N.eqb (code c) 46 || N.eqb (code c) 33 || N.eqb (code c) 63)%bool.

(** [str.lower] on one character: A-Z and the upper-case letters
    U+00C0..U+00DE (U+00D7, the multiplication sign, excepted). *)
Definition lower_char (c : ascii) : ascii :=
  if (between 65 90 c
      || (between 192 222 c && negb (N.eqb (code c) 215)))%bool
  then ascii_of_N (code c + 32) else c.

Fixpoint lower (s : string) : string :=
  match s with
  | EmptyString => EmptyString
  | String c s' => String (lower_char c) (lower s')
  end.

Definition is_empty (s : string) : bool :=
  match s with EmptyString => true | _ => false end.

Fixpoint lstrip (s : string) : string :=
  match s with
  | EmptyString => EmptyString
  | String c s' => if isspace c then lstrip s' else s
  end.

Fixpoint rstrip (s : string) : string :=
  match s with
  | EmptyString => EmptyString
  | String c s' =>
      let r := rstrip s' in
      if (is_empty r && isspace c)%bool then EmptyString else String c r
  end.

(** [s.strip()] *)
Definition strip (s : string) : string := rstrip (lstrip s).

Fixpoint take (n : nat) (s : string) : string :=
  match n, s with
  | S n', String c s' => String c (take n' s')
  | _, _ => EmptyString
  end.

(** [s[:m]]: a negative bound counts from the end. *)
Definition slice_to (s : string) (m : Z) : string :=
  if m <? 0 then take (Z.to_nat (Z.of_nat (String.length s) + m)) s
  else take (Z.to_nat m) s.

(** [sep.join(l)] *)
Definition join (sep : string) (l : list string) : string :=
  String.concat sep l.

(** [re.sub(r"\s+", " ", s)]: every maximal run of whitespace becomes one
    space.  [in_run] tells that the previous character belonged to the
    run being replaced. *)
Fixpoint collapse_from (in_run : bool) (s : string) : string :=
  match s with
  | EmptyString => EmptyString
  | String c s' =>
      if isspace c
      then if in_run then collapse_from true s'
           else String " "%char (collapse_from true s')
      else String c (collapse_from false s')
  end.

Definition collapse_ws (s : string) : string := collapse_from false s.

(** [re.findall(r"[a-zA-Z]+", s)]: the maximal runs of letters, left to
    right.  [alpha_runs s] is the run that starts at the head of [s]
    (empty when [s] does not start with a letter) and the later runs. *)
Definition push_run (r : string) (ws : list string) : list string :=
  if is_empty r then ws else r :: ws.

Fixpoint alpha_runs (s : string) : string * list string :=
  match s with
  | EmptyString => (EmptyString, [])
  | String c s' =>
      let (r, ws) := alpha_runs s' in
      if isalpha c then (String c r, ws) else (EmptyString, push_run r ws)
  end.

Definition findall_alpha (s : string) : list string :=
  let (r, ws) := alpha_runs s in push_run r ws.

(** [re.split(r'(?<=[.!?])\s+', s)].  A match starts at a whitespace
    character that follows one of [. ! ?] and extends over the whole run
    of whitespace; the text between matches is returned, the matches are
    dropped.  The scanner is in one of three modes. *)
Inductive split_mode :=
| Plain        (* the previous character does not allow a match to start *)
| AfterTerm    (* the previous character is one of . ! ? *)
| InDelim.     (* inside a match *)

Definition cons_head (c : ascii) (ps : list string) : list string :=
  match ps with
  | [] => [String c EmptyString]
  | p :: ps' => String c p :: ps'
  end.

Fixpoint split_from (m : split_mode) (s : string) : list string :=
  match s with
  | EmptyString => [EmptyString]
  | String c s' =>
      if isspace c then
        match m with
        | InDelim => split_from InDelim s'
        | AfterTerm => EmptyString :: split_from InDelim s'
        | Plain => cons_head c (split_from Plain s')
        end
      else cons_head c (split_from (if isterm c then AfterTerm else Plain) s')
  end.

Definition split_sentences (s : string) : list string := split_from Plain s.

End PyStr.

(* ================================================================== *)
(** ** Dictionaries *)
(* ================================================================== *)

(** A Python [dict] with [str] keys: the items in insertion order, every
    key once.  Assigning to a key that is present replaces its value in
    place; a new key goes to the end. *)
Module Dict.

Section WithValues.
Context {V : Type}.

Definition t := list (string * V).

Definition empty : t := [].

Fixpoint get (d : t) (k : string) : option V :=
  match d with
  | [] => None
  | (k', v) :: d' => if String.eqb k' k then Some v else get d' k
  end.

(** [d.get(k, dflt)] *)
Definition get_default (d : t) (k : string) (dflt : V) : V :=
  match get d k with Some v => v | None => dflt end.

(** [d[k] = v] *)
Fixpoint set (d : t) (k : string) (v : V) : t :=
  match d with
  | [] => [(k, v)]
  | (k', v') :: d' =>
      if String.eqb k' k then (k', v) :: d' else (k', v') :: set d' k v
  end.

(** iteration over a dict yields its keys in insertion order *)
Definition keys (d : t) : list string := map fst d.

End WithValues.

Arguments t : clear implicits.

End Dict.

(* ================================================================== *)
(** ** heapq.nlargest *)
(* ================================================================== *)

(** [heapq.nlargest(n, iterable, key)] returns what
    [sorted(iterable, key=key, reverse=True)[:n]] returns for [n >= 0]:
    the elements in descending key order, elements with equal keys in the
    order of the iterable; and the empty list for [n <= 0]. *)
Module Heapq.

Section WithKey.
Context {A : Type} (key : A -> Z).

(** [x] comes from before every element of [l] in the iterable, so it
    goes in front of the first element whose key is not larger. *)
Fixpoint insert_desc (x : A) (l : list A) : list A :=
  match l with
  | [] => [x]
  | y :: l' => if key x <? key y then y :: insert_desc x l' else x :: l
  end.

Fixpoint sorted_desc (l : list A) : list A :=
  match l with
  | [] => []
  | x :: l' => insert_desc x (sorted_desc l')
  end.

Definition nlargest (n : Z) (l : list A) : list A :=
  if n <=? 0 then [] else firstn (Z.to_nat n) (sorted_desc l).

End WithKey.

End Heapq.

(* ================================================================== *)
(** ** The fallback summariser *)
(* ================================================================== *)

Module Summarizer.

Import PyStr.

(** the loop [for w in words: freq[w] = freq.get(w, 0) + 1] *)
Definition count_word (freq : Dict.t Z) (w : string) : Dict.t Z :=
  Dict.set freq w (Dict.get_default freq w 0 + 1).

Definition word_freq (text : string) : Dict.t Z :=
  fold_left count_word (findall_alpha (lower text)) Dict.empty.

(** [sum(freq.get(w, 0) for w in re.findall(r"[a-zA-Z]+", s.lower()))] *)
Definition sentence_score (freq : Dict.t Z) (s : string) : Z :=
  fold_left Z.add
    (map (fun w => Dict.get_default freq w 0) (findall_alpha (lower s))) 0.

(** the loop [for s in sentences: scores[s] = score] *)
Definition record_score (freq : Dict.t Z) (scores : Dict.t Z) (s : string)
  : Dict.t Z :=
  Dict.set scores s (sentence_score freq s).

Definition sentence_scores (freq : Dict.t Z) (sentences : list string)
  : Dict.t Z :=
  fold_left (record_score freq) sentences Dict.empty.

(** [scores.get], used as the key of [nlargest]; it is applied to keys
    of [scores] only. *)
Definition scores_get (scores : Dict.t Z) (s : string) : Z :=
  Dict.get_default scores s 0.

Definition textrank_summarize (text : string) (n_sentences : Z) : string :=
  let sentences := split_sentences text in
  if Z.of_nat (List.length sentences) <=? n_sentences then text
  else
    let freq := word_freq text in
    let scores := sentence_scores freq sentences in
    let best :=
      Heapq.nlargest (scores_get scores) n_sentences (Dict.keys scores) in
    join " " best.

End Summarizer.

(* ================================================================== *)
(** ** The document tree and the extractor *)
(* ================================================================== *)

(** The HTML parser is used as a capability: what the program works on is
    the tree it returns.  A document is the list of the nodes at its top
    level. *)
Module Soup.

Import PyStr.

Inductive node :=
| Text (s : string)                       (* a text node *)
| Comment (s : string)                    (* comment, doctype, ...: no text *)
| Element (name : string) (contents : list node).

Definition name_in (names : list string) (n : string) : bool :=
  existsb (String.eqb n) names.

Definition REMOVED : list string :=
  ["script"; "style"; "noscript"; "iframe"; "header"; "footer"; "nav"].

Definition BLOCKS : list string := ["article"; "div"; "section"; "main"].

(** the nodes below [n], in document order *)
Fixpoint descendants (n : node) : list node :=
  match n with
  | Element _ cs => flat_map (fun c => c :: descendants c) cs
  | _ => []
  end.

Definition nodes_of (doc : list node) : list node :=
  flat_map (fun c => c :: descendants c) doc.

Definition is_tag (names : list string) (n : node) : bool :=
  match n with
  | Element nm _ => name_in names nm
  | _ => false
  end.

(** [tag.find_all(names)] and [soup.find_all(names)] *)
Definition find_all (names : list string) (n : node) : list node :=
  filter (is_tag names) (descendants n).

Definition doc_find_all (names : list string) (doc : list node) : list node :=
  filter (is_tag names) (nodes_of doc).

(** [soup.body]: the first [body] element, if any *)
Definition body (doc : list node) : option node :=
  List.find (is_tag ["body"]) (nodes_of doc).

(** [for t in soup(names): t.decompose()]: every element of one of the
    kinds leaves the tree with everything below it. *)
Fixpoint decompose_in (names : list string) (n : node) : list node :=
  match n with
  | Element nm cs =>
      if name_in names nm then []
      else [Element nm (flat_map (decompose_in names) cs)]
  | _ => [n]
  end.

Definition decompose_all (names : list string) (doc : list node)
  : list node :=
  flat_map (decompose_in names) doc.

(** [tag.stripped_strings]: the text nodes below the tag, each stripped,
    the empty ones left out *)
Definition stripped (n : node) : list string :=
  match n with
  | Text s => let t := strip s in if is_empty t then [] else [t]
  | _ => []
  end.

Definition stripped_strings (n : node) : list string :=
  flat_map stripped (descendants n).

(** [tag.get_text(sep, strip=True)] *)
Definition get_text (sep : string) (n : node) : string :=
  join sep (stripped_strings n).

(** the text of a candidate: lines 55-56 *)
Definition paragraph_text (c : node) : string :=
  strip (join " " (map (get_text " ") (find_all ["p"] c))).

(** one round of the loop over the candidates, on
    [(best_text, best_len)] *)
Definition consider (st : string * Z) (c : node) : string * Z :=
  let text := paragraph_text c in
  if snd st <? Z.of_nat (String.length text)
  then (text, Z.of_nat (String.length text))
  else st.

Definition best_text (candidates : list node) : string :=
  fst (fold_left consider candidates (EmptyString, 0)).

(** lines 41-62 of [extract_article_text], from the parsed document on *)
Definition extract_from_soup (doc : list node) (max_chars : Z) : string :=
  let soup := decompose_all REMOVED doc in
  let candidates := doc_find_all BLOCKS soup in
  match candidates, body soup with
  | [], Some b => slice_to (join " " (stripped_strings b)) max_chars
  | _, _ => slice_to (strip (collapse_ws (best_text candidates))) max_chars
  end.

End Soup.

(* ================================================================== *)
(** ** The endpoint *)
(* ================================================================== *)

Module Endpoint.

Import PyStr.

(** the exceptions the handler tells apart: [requests.HTTPError] and
    everything else below [Exception] *)
Inductive exn :=
| HTTPError (msg : string)
| ConnectionError (msg : string)
| Timeout (msg : string)
| OtherException (msg : string).

Definition exn_str (e : exn) : string :=
  match e with
  | HTTPError m | ConnectionError m | Timeout m | OtherException m => m
  end.

Definition is_HTTPError (e : exn) : bool :=
  match e with HTTPError _ => true | _ => false end.

Inductive result (A : Type) :=
| Return (a : A)
| Raise (e : exn).
Arguments Return {A} a.
Arguments Raise {A} e.

Definition bind {A B} (r : result A) (k : A -> result B) : result B :=
  match r with
  | Return a => k a
  | Raise e => Raise e
  end.

Notation "x <- r ;; k" := (bind r (fun x => k))
  (at level 61, r at next level, right associativity).

Record http_response := { status_code : Z; text : string }.

(** [Response.raise_for_status]: client and server error codes raise *)
Definition raise_for_status (r : http_response) : result unit :=
  if ((400 <=? status_code r) && (status_code r <? 600))%bool
  then Raise (HTTPError "HTTP error")
  else Return tt.

Record tokenizer := {
  encode : string -> result (list Z);
  batch_decode : list Z -> result string
}.

Record seq2seq := {
  generate : list Z -> Z -> Z -> result (list Z)
}.

(** what a request handler finds around it: the HTTP client, the HTML
    parser (which can raise on its input) and the module's globals *)
Record env := {
  requests_get : string -> result http_response;
  html_parser : string -> result (list Soup.node);
  HF_AVAILABLE : bool;
  HF_MODEL : option seq2seq;
  HF_TOKENIZER : option tokenizer
}.

(** lines 10-24: the globals after import, from the outcome of the two
    loads *)
Definition load_globals (tok : result tokenizer) (model : result seq2seq)
  : bool * option seq2seq * option tokenizer :=
  match tok with
  | Raise _ => (false, None, None)
  | Return t =>
      match model with
      | Raise _ => (false, None, Some t)
      | Return m => (true, Some m, Some t)
      end
  end.

Definition extract_article_text (E : env) (url : string) (max_chars : Z)
  : result string :=
  resp <- requests_get E url ;;
  _ <- raise_for_status resp ;;
  soup <- html_parser E (text resp) ;;
  Return (Soup.extract_from_soup soup max_chars).

Definition hf_summarize (E : env) (article : string)
  (max_length min_length : Z) : result (option string) :=
  match HF_AVAILABLE E, HF_MODEL E, HF_TOKENIZER E with
  | true, Some model, Some tok =>
      inputs <- encode tok article ;;
      summary_ids <- generate model inputs max_length min_length ;;
      summary <- batch_decode tok summary_ids ;;
      Return (Some summary)
  | _, _, _ => Return None
  end.

(** the JSON body of the request, field by field *)
Record request := {
  url : option string;
  prefer_hf : option bool
}.

Inductive json_body :=
| ErrorBody (error : string) (detail : option string)
| SummaryBody (article : string) (summary : option string) (used_hf : bool).

(** [not summary] *)
Definition falsy (summary : option string) : bool :=
  match summary with
  | None => true
  | Some s => is_empty s
  end.

Definition is_not_None (summary : option string) : bool :=
  match summary with Some _ => true | None => false end.

(** lines 111-112: [data.get('url', '').strip()] and
    [data.get('prefer_hf', True)] *)
Definition request_url (req : request) : string :=
  strip (match url req with Some u => u | None => EmptyString end).

Definition request_prefer_hf (req : request) : bool :=
  match prefer_hf req with Some b => b | None => true end.

Definition api_summarize (E : env) (req : request) : json_body * Z :=
  let url := request_url req in
  let prefer_hf := request_prefer_hf req in
  if is_empty url then (ErrorBody "no url provided" None, 400)
  else
    match extract_article_text E url 20000 with
    | Raise e =>
        if is_HTTPError e
        then (ErrorBody "failed to fetch url" (Some (exn_str e)), 502)
        else (ErrorBody "internal error" (Some (exn_str e)), 500)
    | Return article =>
        if is_empty article
        then (ErrorBody "no article text extracted" None, 422)
        else
          let summary :=
            if prefer_hf then
              match hf_summarize E article 140 40 with
              | Return s => s
              | Raise _ => None
              end
            else None in
          let summary :=
            if falsy summary
            then Some (Summarizer.textrank_summarize article 4)
            else summary in
          (SummaryBody article summary
             (HF_AVAILABLE E && prefer_hf
              && (is_not_None summary && HF_AVAILABLE E))%bool,
           200)
    end.

End Endpoint.

(* ================================================================== *)
(** ** Vocabulary of the statements *)
(* ================================================================== *)

Module Order.

Definition seen (k : string) (l : list string) : bool :=
  existsb (String.eqb k) l.

(** the distinct strings of a list, each at its first occurrence *)
Fixpoint distinct (l : list string) : list string :=
  match l with
  | [] => []
  | x :: l' => x :: filter (fun y => negb (String.eqb x y)) (distinct l')
  end.

(** [a] occurs in [l] at some place before an occurrence of [b] *)
Definition before {A : Type} (l : list A) (a b : A) : Prop :=
  exists l1 l2 l3, l = l1 ++ a :: l2 ++ b :: l3.

(** [out] is made of exactly [n] sentences of the split of [text] *)
Definition made_of_n_sentences (text : string) (n : Z) (out : string)
  : Prop :=
  exists best,
    Z.of_nat (List.length best) = n
    /\ (forall s, In s best -> In s (PyStr.split_sentences text))
    /\ out = PyStr.join " " best.

(** characters of a list of pieces, one more for each piece *)
Fixpoint weight (l : list string) : nat :=
  match l with
  | [] => 0
  | p :: l' => S (String.length p + weight l')
  end.

End Order.

Module Shape.

Import PyStr Soup.

(** no two whitespace characters in a row *)
Fixpoint no_space_run (s : string) : bool :=
  match s with
  | String a (String b _ as s') =>
      (negb (isspace a && isspace b) && no_space_run s')%bool
  | _ => true
  end.

Definition starts_with_space (s : string) : bool :=
  match s with
  | String c _ => isspace c
  | EmptyString => false
  end.

Fixpoint ends_with_space (s : string) : bool :=
  match s with
  | EmptyString => false
  | String c EmptyString => isspace c
  | String _ s' => ends_with_space s'
  end.

(** whitespace-normalised: single whitespace characters only, none at
    either end *)
Definition normalized (s : string) : bool :=
  (no_space_run s && negb (starts_with_space s)
   && negb (ends_with_space s))%bool.

(** a stripped, non-empty string *)
Definition trimmed (t : string) : Prop :=
  is_empty t = false /\ starts_with_space t = false
  /\ ends_with_space t = false.

(** the early return of line 52 is taken: no candidate, and a body *)
Definition body_fallback (doc : list node) : bool :=
  let soup := decompose_all REMOVED doc in
  match doc_find_all BLOCKS soup, body soup with
  | [], Some _ => true
  | _, _ => false
  end.

(** two trees that differ at most below elements of the given kinds *)
Inductive same_outside (names : list string) : node -> node -> Prop :=
| so_text s : same_outside names (Text s) (Text s)
| so_comment s : same_outside names (Comment s) (Comment s)
| so_removed nm cs cs' :
    name_in names nm = true ->
    same_outside names (Element nm cs) (Element nm cs')
| so_element nm cs cs' :
    Forall2 (same_outside names) cs cs' ->
    same_outside names (Element nm cs) (Element nm cs').

End Shape.

Module Outcome.

Import Endpoint.

(** the fetch did not end in a 2xx response *)
Definition fetch_failed (r : result http_response) : bool :=
  match r with
  | Raise _ => true
  | Return resp =>
      negb ((200 <=? status_code resp) && (status_code resp <? 300))
  end.

(** the model call raised, or returned [None] or an empty summary *)
Definition model_gave_nothing (r : result (option string)) : bool :=
  match r with
  | Raise _ => true
  | Return s => falsy s
  end.

End Outcome.

(** Sample documents and environments. *)
Module Sample.

Import Soup Endpoint.

Definition page : list node :=
  [Element "html"
     [Element "body"
        [Element "nav" [Text "ignore"];
         Element "article" [Element "p" [Text "Hello world."]]]]].

Definition page' : list node :=
  [Element "html"
     [Element "body"
        [Element "nav" [Text "Home"; Element "a" [Text "About"]];
         Element "article" [Element "p" [Text "Hello world."]]]]].

Definition bare_body : list node := [Element "body" [Text "a  b"]].

Definition one_paragraph : list node :=
  [Element "div" [Element "p" [Text "Hello world"]]].

Definition plain_tokenizer : tokenizer :=
  {| encode := fun _ => Return [0; 2];
     batch_decode := fun _ => Return "summary" |}.

Definition failing_model : seq2seq :=
  {| generate := fun _ _ _ => Raise (OtherException "out of memory") |}.

Definition ok_response : http_response :=
  {| status_code := 200; text := "<html>...</html>" |}.

(** the page is served; the model is loaded and fails on every call *)
Definition env_model_fails : env :=
  {| requests_get := fun _ => Return ok_response;
     html_parser := fun _ => Return page;
     HF_AVAILABLE := true;
     HF_MODEL := Some failing_model;
     HF_TOKENIZER := Some plain_tokenizer |}.

(** the page is served; no model was loaded *)
Definition env_no_model : env :=
  {| requests_get := fun _ => Return ok_response;
     html_parser := fun _ => Return page;
     HF_AVAILABLE := false;
     HF_MODEL := None;
     HF_TOKENIZER := None |}.

(** the host cannot be reached *)
Definition env_offline : env :=
  {| requests_get := fun _ => Raise (ConnectionError "connection refused");
     html_parser := fun _ => Return [];
     HF_AVAILABLE := false;
     HF_MODEL := None;
     HF_TOKENIZER := None |}.

(** the server answers 404 *)
Definition env_not_found : env :=
  {| requests_get :=
       fun _ => Return {| status_code := 404; text := "Not Found" |};
     html_parser := fun _ => Return [];
     HF_AVAILABLE := false;
     HF_MODEL := None;
     HF_TOKENIZER := None |}.

(** the server answers 300 with a page and no redirection target *)
Definition env_multiple_choices : env :=
  {| requests_get :=
       fun _ => Return {| status_code := 300; text := "<html>...</html>" |};
     html_parser := fun _ => Return page;
     HF_AVAILABLE := false;
     HF_MODEL := None;
     HF_TOKENIZER := None |}.

Definition req (u : string) : request :=
  {| url := Some u; prefer_hf := None |}.

End Sample.

(* ================================================================== *)
(** ** Further vocabulary: the shape of texts, pieces and words *)
(* ================================================================== *)

Module Lexis.

Import PyStr Shape.

Fixpoint all_chars (p : ascii -> bool) (s : string) : bool :=
  match s with
  | EmptyString => true
  | String c s' => (p c && all_chars p s')%bool
  end.

(** every whitespace character is a space, and no two of them are
    neighbours *)
Fixpoint single_spaced (s : string) : bool :=
  match s with
  | EmptyString => true
  | String c s' =>
      ((negb (isspace c)
        || (Ascii.eqb c " " && negb (starts_with_space s')))
       && single_spaced s')%bool
  end.

(** the last character is one of [. ! ?] *)
Fixpoint ends_with_term (s : string) : bool :=
  match s with
  | EmptyString => false
  | String c EmptyString => isterm c
  | String _ s' => ends_with_term s'
  end.

(** the first piece of a split that goes on is closed by a terminator:
    one of its own, or the one the scanner has just read *)
Definition head_closed (m : split_mode) (p : string) : Prop :=
  ends_with_term p = true \/ (p = EmptyString /\ m = AfterTerm).

(** [[a-z]] *)
Definition is_lower (c : ascii) : bool := between 97 122 c.

(** a non-empty string of the letters a to z *)
Definition lower_word (w : string) : bool :=
  (negb (is_empty w) && all_chars is_lower w)%bool.

(** the runs of a text, from the runs of the pieces of its split *)
Definition runs_of_pieces (p : string) (ps : list string)
  : string * list string :=
  (fst (alpha_runs p),
   snd (alpha_runs p) ++ flat_map findall_alpha ps).

(** the words of a text and of a sentence, as the summariser reads them *)
Definition tokens (s : string) : list string := findall_alpha (lower s).

(** [len(text)] of a candidate, as line 57 compares it *)
Definition plen (c : Soup.node) : Z :=
  Z.of_nat (String.length (Soup.paragraph_text c)).

End Lexis.

(** Further sample documents. *)
Module Sample2.

Import Soup Endpoint.

(** two blocks whose paragraph texts have the same length *)
Definition first_block : node := Element "div" [Element "p" [Text "aaa"]].
Definition second_block : node :=
  Element "section" [Element "p" [Text "bbb"]].

(** a body with text and a block without paragraphs *)
Definition no_paragraphs : list node :=
  [Element "body" [Text "hello"; Element "div" [Text "x"]]].

(** the page is served, and the parser raises on it *)
Definition env_parser_raises : env :=
  {| requests_get := fun _ => Return Sample.ok_response;
     html_parser := fun _ => Raise (OtherException "AssertionError");
     HF_AVAILABLE := false;
     HF_MODEL := None;
     HF_TOKENIZER := None |}.

Definition working_model : seq2seq :=
  {| generate := fun inputs _ _ => Return inputs |}.

(** the page is served; the model is loaded and answers *)
Definition env_model_works : env :=
  {| requests_get := fun _ => Return Sample.ok_response;
     html_parser := fun _ => Return Sample.page;
     HF_AVAILABLE := true;
     HF_MODEL := Some working_model;
     HF_TOKENIZER := Some Sample.plain_tokenizer |}.

End Sample2.

(* ================================================================== *)
(** ** Facts about lists, dictionaries and the selection *)
(* ================================================================== *)

Module ListFacts.

Import Order.

Lemma filter_comm {A} (p q : A -> bool) (l : list A) :
  filter p (filter q l) = filter q (filter p l).
Proof.
  induction l as [|x l IH]; simpl; [reflexivity|].
  destruct (q x) eqn:Hq, (p x) eqn:Hp; simpl; rewrite ?Hq, ?Hp, IH;
    reflexivity.
Qed.

Lemma filter_absorb {A} (p q : A -> bool) (l : list A) :
  (forall y, p y = true -> q y = true) ->
  filter p (filter q l) = filter p l.
Proof.
  intros Hpq. induction l as [|x l IH]; simpl; [reflexivity|].
  destruct (q x) eqn:Hq; simpl.
  - rewrite IH. reflexivity.
  - destruct (p x) eqn:Hp; [|exact IH].
    apply Hpq in Hp. congruence.
Qed.

Lemma distinct_filter (p : string -> bool) (l : list string) :
  distinct (filter p l) = filter p (distinct l).
Proof.
  induction l as [|x l IH]; simpl; [reflexivity|].
  destruct (p x) eqn:Hp; simpl.
  - rewrite IH, filter_comm. reflexivity.
  - rewrite IH. symmetry. apply filter_absorb.
    intros y Hy. destruct (String.eqb_spec x y); [congruence|reflexivity].
Qed.

Lemma distinct_In (l : list string) (s : string) :
  In s (distinct l) <-> In s l.
Proof.
  induction l as [|x l IH]; simpl; [tauto|].
  rewrite filter_In, IH.
  destruct (String.eqb_spec x s); simpl; intuition congruence.
Qed.

Lemma distinct_NoDup (l : list string) : NoDup (distinct l).
Proof.
  induction l as [|x l IH]; simpl; constructor.
  - rewrite filter_In, String.eqb_refl. simpl. intros [_ H]. discriminate.
  - apply NoDup_filter, IH.
Qed.

Lemma weight_app (l1 l2 : list string) :
  weight (l1 ++ l2) = (weight l1 + weight l2)%nat.
Proof. induction l1; simpl; lia. Qed.

Lemma weight_perm (l1 l2 : list string) :
  Permutation l1 l2 -> weight l1 = weight l2.
Proof. induction 1; simpl; lia. Qed.

Lemma weight_filter (p : string -> bool) (l : list string) :
  (weight (filter p l) <= weight l)%nat.
Proof. induction l as [|x l IH]; simpl; [|destruct (p x); simpl]; lia. Qed.

Lemma weight_distinct (l : list string) :
  (weight (distinct l) <= weight l)%nat.
Proof.
  induction l as [|x l IH]; simpl; [lia|].
  pose proof (weight_filter (fun y => negb (String.eqb x y)) (distinct l)).
  lia.
Qed.

Lemma weight_firstn (n : nat) (l : list string) :
  (weight (firstn n l) <= weight l)%nat.
Proof.
  revert l. induction n as [|n IH]; intros [|x l]; simpl; try lia.
  specialize (IH l). lia.
Qed.

Lemma firstn_incl {A} (n : nat) (l : list A) (x : A) :
  In x (firstn n l) -> In x l.
Proof.
  revert l. induction n as [|n IH]; intros [|y l]; simpl; try tauto.
  intros [H|H]; [left; exact H | right; apply IH, H].
Qed.

Lemma firstn_NoDup {A} (n : nat) (l : list A) :
  NoDup l -> NoDup (firstn n l).
Proof.
  revert l. induction n as [|n IH]; intros [|y l] H; simpl;
    try constructor.
  - inversion H; subst. intros Hin. apply firstn_incl in Hin. tauto.
  - inversion H; subst. apply IH. assumption.
Qed.

Lemma firstn_len {A} (n : nat) (l : list A) :
  List.length (firstn n l) = Nat.min n (List.length l).
Proof.
  revert l. induction n as [|n IH]; intros [|y l]; simpl; try reflexivity.
  rewrite IH. reflexivity.
Qed.

Lemma before_cons {A} (x : A) (l : list A) (a b : A) :
  before l a b -> before (x :: l) a b.
Proof.
  intros (l1 & l2 & l3 & ->). exists (x :: l1), l2, l3. reflexivity.
Qed.

Lemma before_head {A} (x : A) (l : list A) (b : A) :
  In b l -> before (x :: l) x b.
Proof.
  intros H. apply in_split in H as (l2 & l3 & ->).
  exists [], l2, l3. reflexivity.
Qed.

Lemma sorted_weaken {A} (R R' : A -> A -> Prop) (l : list A) :
  (forall a b, R a b -> R' a b) ->
  StronglySorted R l -> StronglySorted R' l.
Proof.
  intros HR. induction 1 as [|a l _ IH Hall]; constructor; [exact IH|].
  eapply Forall_impl; [|exact Hall]. intros b. apply HR.
Qed.

Lemma sorted_before {A} (R : A -> A -> Prop) (l : list A) (a b : A) :
  StronglySorted R l -> before l a b -> R a b.
Proof.
  intros Hs (l1 & l2 & l3 & ->).
  induction l1 as [|x l1 IH]; simpl in Hs.
  - apply StronglySorted_inv in Hs as [_ Hall].
    rewrite Forall_forall in Hall. apply Hall.
    apply in_or_app. right. left. reflexivity.
  - apply StronglySorted_inv in Hs as [Hs _]. apply IH, Hs.
Qed.

End ListFacts.

Module DictFacts.

Import Order.

Section WithValues.
Context {V : Type}.
Implicit Types (d : Dict.t V) (k : string) (v : V).

Lemma get_set d k v k' :
  Dict.get (Dict.set d k v) k'
  = if String.eqb k k' then Some v else Dict.get d k'.
Proof.
  induction d as [|[k0 v0] d IH]; simpl.
  - reflexivity.
  - destruct (String.eqb_spec k0 k) as [->|Hne]; simpl.
    + destruct (String.eqb k k'); reflexivity.
    + rewrite IH. destruct (String.eqb_spec k0 k') as [->|Hne'].
      * destruct (String.eqb_spec k k'); [congruence|reflexivity].
      * reflexivity.
Qed.

Lemma keys_set d k v :
  Dict.keys (Dict.set d k v)
  = if seen k (Dict.keys d) then Dict.keys d else Dict.keys d ++ [k].
Proof.
  unfold seen. induction d as [|[k0 v0] d IH]; simpl.
  - reflexivity.
  - rewrite (String.eqb_sym k k0).
    destruct (String.eqb k0 k); simpl; [reflexivity|].
    rewrite IH. destruct (existsb (String.eqb k) (Dict.keys d));
      reflexivity.
Qed.

End WithValues.

End DictFacts.

Module HeapqFacts.

Import Order ListFacts.

Section WithKey.
Context {A : Type} (key : A -> Z).

(** the order of the result: a larger key first, and of two equal keys
    the one that comes first in the iterable [l0] *)
Definition ranks_above (l0 : list A) (a b : A) : Prop :=
  key b < key a \/ (key a = key b /\ before l0 a b).

Lemma insert_desc_perm (x : A) (l : list A) :
  Permutation (Heapq.insert_desc key x l) (x :: l).
Proof.
  induction l as [|y l IH]; simpl; [reflexivity|].
  destruct (key x <? key y); [|reflexivity].
  rewrite IH. apply perm_swap.
Qed.

Lemma sorted_desc_perm (l : list A) :
  Permutation (Heapq.sorted_desc key l) l.
Proof.
  induction l as [|x l IH]; simpl; [reflexivity|].
  rewrite insert_desc_perm, IH. reflexivity.
Qed.

Lemma insert_desc_ranked (l0 : list A) (x : A) (l : list A) :
  (forall y, In y l -> In y l0) ->
  StronglySorted (ranks_above (x :: l0)) l ->
  StronglySorted (ranks_above (x :: l0)) (Heapq.insert_desc key x l).
Proof.
  intros Hin Hs. induction Hs as [|y l Hs IH Hall]; simpl.
  - repeat constructor.
  - destruct (Z.ltb_spec (key x) (key y)) as [Hlt|Hge].
    + constructor.
      * apply IH. intros z Hz. apply Hin. right. exact Hz.
      * eapply Permutation_Forall;
          [symmetry; apply insert_desc_perm|].
        constructor; [left; exact Hlt | exact Hall].
    + constructor; [constructor; assumption|].
      assert (Hy : ranks_above (x :: l0) x y).
      { destruct (Z.eq_dec (key x) (key y)) as [He|Hne].
        - right. split; [exact He|]. apply before_head, Hin. left.
          reflexivity.
        - left. lia. }
      constructor; [exact Hy|].
      rewrite Forall_forall in *. intros z Hz.
      assert (Hle : key z <= key y).
      { destruct (Hall z Hz) as [?|[? _]]; lia. }
      destruct (Z.eq_dec (key x) (key z)) as [He|Hne].
      * right. split; [exact He|]. apply before_head, Hin. right.
        exact Hz.
      * left. lia.
Qed.

Lemma sorted_desc_ranked (l : list A) :
  StronglySorted (ranks_above l) (Heapq.sorted_desc key l).
Proof.
  induction l as [|x l IH]; simpl; [constructor|].
  apply insert_desc_ranked.
  - intros y Hy. eapply Permutation_in; [apply sorted_desc_perm|exact Hy].
  - eapply sorted_weaken; [|exact IH].
    intros a b [H|[H1 H2]]; [left; exact H|right].
    split; [exact H1 | apply before_cons, H2].
Qed.

End WithKey.

Lemma insert_desc_ext {A} (key key' : A -> Z) (x : A) (l : list A) :
  key x = key' x -> (forall y, In y l -> key y = key' y) ->
  Heapq.insert_desc key x l = Heapq.insert_desc key' x l.
Proof.
  intros Hx. induction l as [|y l IH]; intros Hl; simpl; [reflexivity|].
  rewrite Hx, (Hl y (or_introl eq_refl)), IH; [reflexivity|].
  intros z Hz. apply Hl. right. exact Hz.
Qed.

Lemma sorted_desc_ext {A} (key key' : A -> Z) (l : list A) :
  (forall y, In y l -> key y = key' y) ->
  Heapq.sorted_desc key l = Heapq.sorted_desc key' l.
Proof.
  induction l as [|x l IH]; intros Hl; simpl; [reflexivity|].
  rewrite IH by (intros z Hz; apply Hl; right; exact Hz).
  apply insert_desc_ext.
  - apply Hl. left. reflexivity.
  - intros y Hy. apply Hl. right.
    eapply Permutation_in; [apply sorted_desc_perm|exact Hy].
Qed.

End HeapqFacts.

Module SummarizerFacts.

Import PyStr Summarizer Order ListFacts DictFacts HeapqFacts.

Lemma seen_In (s : string) (l : list string) :
  seen s l = true <-> In s l.
Proof.
  unfold seen. rewrite existsb_exists. split.
  - intros (x & Hx & He). apply String.eqb_eq in He. subst. exact Hx.
  - intros H. exists s. split; [exact H | apply String.eqb_refl].
Qed.

Lemma filter_unseen_nil (l : list string) :
  filter (fun s => negb (seen s [])) l = l.
Proof.
  induction l as [|x l IH]; [reflexivity|].
  simpl. f_equal. exact IH.
Qed.

Lemma filter_unseen_snoc (ks : list string) (x : string) (l : list string) :
  filter (fun s => negb (seen s (ks ++ [x]))) l
  = filter (fun y => negb (String.eqb x y))
      (filter (fun s => negb (seen s ks)) l).
Proof.
  induction l as [|a l IH]; simpl; [reflexivity|].
  assert (Hs : seen a (ks ++ [x]) = (seen a ks || String.eqb a x)%bool).
  { unfold seen. rewrite existsb_app. simpl. rewrite orb_false_r.
    reflexivity. }
  rewrite Hs. destruct (seen a ks); simpl; [exact IH|].
  rewrite (String.eqb_sym a x).
  destruct (String.eqb x a); simpl; rewrite IH; reflexivity.
Qed.

Section Scores.
Variable freq : Dict.t Z.

Lemma scores_keys (l : list string) (d : Dict.t Z) :
  Dict.keys (fold_left (record_score freq) l d)
  = Dict.keys d
    ++ distinct (filter (fun s => negb (seen s (Dict.keys d))) l).
Proof.
  revert d. induction l as [|x l IH]; intros d; simpl.
  - rewrite app_nil_r. reflexivity.
  - rewrite IH. unfold record_score at 1 2. rewrite keys_set.
    destruct (seen x (Dict.keys d)) eqn:Hx; simpl; [reflexivity|].
    rewrite <- app_assoc. simpl.
    rewrite filter_unseen_snoc, distinct_filter. reflexivity.
Qed.

Lemma scores_values (l : list string) (d : Dict.t Z) (s : string) :
  Dict.get (fold_left (record_score freq) l d) s
  = if seen s l then Some (sentence_score freq s) else Dict.get d s.
Proof.
  revert d. induction l as [|x l IH]; intros d; [reflexivity|].
  cbn [fold_left]. rewrite IH. unfold record_score. rewrite get_set.
  change (seen s (x :: l)) with (String.eqb s x || seen s l)%bool.
  rewrite (String.eqb_sym s x).
  destruct (seen s l); [rewrite orb_true_r; reflexivity|].
  rewrite orb_false_r.
  destruct (String.eqb_spec x s) as [->|]; reflexivity.
Qed.

Lemma sentence_scores_keys (l : list string) :
  Dict.keys (sentence_scores freq l) = distinct l.
Proof.
  unfold sentence_scores. rewrite scores_keys.
  change (Dict.keys (@Dict.empty Z)) with (@nil string).
  rewrite filter_unseen_nil. reflexivity.
Qed.

Lemma scores_get_sentence (l : list string) (s : string) :
  In s l -> scores_get (sentence_scores freq l) s = sentence_score freq s.
Proof.
  intros H. unfold scores_get, Dict.get_default, sentence_scores.
  rewrite scores_values. apply seen_In in H. rewrite H. reflexivity.
Qed.

End Scores.

(** the sentences in the order in which they are selected *)
Definition ranked (text : string) : list string :=
  Heapq.sorted_desc (sentence_score (word_freq text))
    (distinct (split_sentences text)).

Lemma textrank_selected (text : string) (n : Z) :
  n < Z.of_nat (List.length (split_sentences text)) ->
  textrank_summarize text n = join " " (firstn (Z.to_nat n) (ranked text)).
Proof.
  intros Hn. unfold textrank_summarize, ranked, Heapq.nlargest.
  destruct (Z.leb_spec (Z.of_nat (List.length (split_sentences text))) n);
    [lia|].
  rewrite sentence_scores_keys.
  rewrite (sorted_desc_ext _ (sentence_score (word_freq text))).
  - destruct (Z.leb_spec n 0) as [H0|H0]; [|reflexivity].
    replace (Z.to_nat n) with 0%nat by lia. reflexivity.
  - intros s Hs. apply scores_get_sentence, distinct_In, Hs.
Qed.

Lemma ranked_perm (text : string) :
  Permutation (ranked text) (distinct (split_sentences text)).
Proof. apply sorted_desc_perm. Qed.

Lemma length_append (s1 s2 : string) :
  String.length (s1 ++ s2)%string
  = (String.length s1 + String.length s2)%nat.
Proof. induction s1 as [|c s1 IH]; simpl; [|rewrite IH]; reflexivity. Qed.

Lemma join_weight (l : list string) :
  (String.length (join " " l) <= pred (weight l))%nat.
Proof.
  unfold join. induction l as [|x [|y l] IH]; simpl in *.
  - lia.
  - lia.
  - rewrite length_append. simpl. lia.
Qed.

Lemma cons_head_weight (c : ascii) (ps : list string) :
  (1 <= weight ps)%nat -> weight (cons_head c ps) = S (weight ps).
Proof. destruct ps; simpl; lia. Qed.

Lemma split_weight (m : split_mode) (s : string) :
  (1 <= weight (split_from m s) <= S (String.length s))%nat.
Proof.
  revert m. induction s as [|c s IH]; intros m; simpl; [lia|].
  destruct (isspace c); [destruct m|].
  - rewrite cons_head_weight; specialize (IH Plain); lia.
  - specialize (IH InDelim). simpl. lia.
  - specialize (IH InDelim). lia.
  - rewrite cons_head_weight;
      specialize (IH (if isterm c then AfterTerm else Plain)); lia.
Qed.

Lemma textrank_length_le (text : string) (n : Z) :
  (String.length (textrank_summarize text n) <= String.length text)%nat.
Proof.
  destruct (Z.leb_spec (Z.of_nat (List.length (split_sentences text))) n)
    as [Hle|Hgt].
  - unfold textrank_summarize.
    destruct (Z.leb_spec (Z.of_nat (List.length (split_sentences text))) n);
      [lia|lia].
  - rewrite (textrank_selected _ _ Hgt).
    pose proof (join_weight (firstn (Z.to_nat n) (ranked text))).
    pose proof (weight_firstn (Z.to_nat n) (ranked text)).
    pose proof (weight_perm _ _ (ranked_perm text)).
    pose proof (weight_distinct (split_sentences text)).
    pose proof (split_weight Plain text). unfold split_sentences in *.
    lia.
Qed.

End SummarizerFacts.

Module StrFacts.

Import PyStr Shape.

Lemma take_length (n : nat) (s : string) :
  (String.length (take n s) <= n)%nat.
Proof.
  revert s. induction n as [|n IH]; intros [|c s]; simpl; try lia.
  specialize (IH s). lia.
Qed.

Lemma take_prefix (n : nat) (s : string) :
  exists t, s = (take n s ++ t)%string.
Proof.
  revert s. induction n as [|n IH]; intros [|c s]; simpl;
    try (eexists; reflexivity).
  destruct (IH s) as [t Ht]. exists t. f_equal. exact Ht.
Qed.

Lemma take_all (n : nat) (s : string) :
  (String.length (take n s) < n)%nat -> take n s = s.
Proof.
  revert s. induction n as [|n IH]; intros [|c s]; simpl; try lia.
  - reflexivity.
  - intros H. f_equal. apply IH. lia.
Qed.

Lemma slice_to_prefix (s : string) (m : Z) :
  exists t, s = (slice_to s m ++ t)%string.
Proof. unfold slice_to. destruct (m <? 0); apply take_prefix. Qed.

Lemma slice_to_length (s : string) (m : Z) :
  0 <= m -> Z.of_nat (String.length (slice_to s m)) <= m.
Proof.
  intros Hm. unfold slice_to. destruct (Z.ltb_spec m 0); [lia|].
  pose proof (take_length (Z.to_nat m) s). lia.
Qed.

Lemma slice_to_all (s : string) (m : Z) :
  Z.of_nat (String.length (slice_to s m)) < m -> slice_to s m = s.
Proof.
  unfold slice_to. destruct (Z.ltb_spec m 0) as [Hm|Hm]; [lia|].
  intros Hlen. apply take_all. lia.
Qed.

Lemma rstrip_prefix (s : string) :
  exists t, s = (rstrip s ++ t)%string.
Proof.
  induction s as [|c s [t Ht]]; simpl.
  - exists EmptyString. reflexivity.
  - destruct (is_empty (rstrip s) && isspace c)%bool.
    + eexists. reflexivity.
    + exists t. simpl. f_equal. exact Ht.
Qed.

Lemma no_space_run_cons (a b : ascii) (s : string) :
  no_space_run (String a (String b s))
  = (negb (isspace a && isspace b) && no_space_run (String b s))%bool.
Proof. reflexivity. Qed.

Lemma no_space_run_tail (c : ascii) (s : string) :
  no_space_run (String c s) = true -> no_space_run s = true.
Proof.
  destruct s as [|b s]; [reflexivity|].
  rewrite no_space_run_cons. intros H. apply andb_prop in H. apply H.
Qed.

Lemma no_space_run_prefix (p t : string) :
  no_space_run (p ++ t)%string = true -> no_space_run p = true.
Proof.
  induction p as [|a p IH]; [reflexivity|].
  destruct p as [|b p]; [reflexivity|].
  cbn [append] in *. rewrite !no_space_run_cons. intros H.
  apply andb_prop in H as [H1 H2]. rewrite H1. apply IH, H2.
Qed.

Lemma starts_prefix (p t : string) :
  starts_with_space (p ++ t)%string = false ->
  starts_with_space p = false.
Proof. destruct p; [reflexivity|exact (fun H => H)]. Qed.

Lemma lstrip_starts (s : string) : starts_with_space (lstrip s) = false.
Proof.
  induction s as [|c s IH]; simpl; [reflexivity|].
  destruct (isspace c) eqn:Hc; [exact IH | exact Hc].
Qed.

Lemma lstrip_no_space_run (s : string) :
  no_space_run s = true -> no_space_run (lstrip s) = true.
Proof.
  induction s as [|c s IH]; intros H; [reflexivity|].
  cbn [lstrip]. destruct (isspace c); [|exact H].
  apply IH. eapply no_space_run_tail, H.
Qed.

Lemma rstrip_ends (s : string) : ends_with_space (rstrip s) = false.
Proof.
  induction s as [|c s IH]; simpl; [reflexivity|].
  destruct (rstrip s) as [|b r] eqn:Hr; simpl.
  - destruct (isspace c) eqn:Hc; simpl; [reflexivity|exact Hc].
  - exact IH.
Qed.

Lemma strip_starts (s : string) : starts_with_space (strip s) = false.
Proof.
  unfold strip. destruct (rstrip_prefix (lstrip s)) as [t Ht].
  apply (starts_prefix _ t). rewrite <- Ht. apply lstrip_starts.
Qed.

Lemma strip_ends (s : string) : ends_with_space (strip s) = false.
Proof. apply rstrip_ends. Qed.

Lemma strip_no_space_run (s : string) :
  no_space_run s = true -> no_space_run (strip s) = true.
Proof.
  intros H. unfold strip. destruct (rstrip_prefix (lstrip s)) as [t Ht].
  apply (no_space_run_prefix _ t). rewrite <- Ht.
  apply lstrip_no_space_run, H.
Qed.

Lemma collapse_run_starts (s : string) :
  starts_with_space (collapse_from true s) = false.
Proof.
  induction s as [|c s IH]; simpl; [reflexivity|].
  destruct (isspace c) eqn:Hc; [exact IH | exact Hc].
Qed.

Lemma collapse_no_space_run (b : bool) (s : string) :
  no_space_run (collapse_from b s) = true.
Proof.
  revert b. induction s as [|c s IH]; intros b; [reflexivity|].
  cbn [collapse_from]. destruct (isspace c) eqn:Hc.
  - destruct b; [apply IH|].
    pose proof (collapse_run_starts s) as Hs. specialize (IH true).
    destruct (collapse_from true s) as [|d r]; [reflexivity|].
    rewrite no_space_run_cons. simpl in Hs. rewrite Hs, andb_false_r.
    exact IH.
  - specialize (IH false).
    destruct (collapse_from false s) as [|d r]; [reflexivity|].
    rewrite no_space_run_cons, Hc. exact IH.
Qed.

Lemma cleaned_normalized (s : string) :
  normalized (strip (collapse_ws s)) = true.
Proof.
  unfold normalized.
  rewrite strip_no_space_run by apply collapse_no_space_run.
  rewrite strip_starts, strip_ends. reflexivity.
Qed.

Lemma ends_append (a b : string) :
  is_empty b = false ->
  ends_with_space (a ++ b)%string = ends_with_space b.
Proof.
  intros Hb. induction a as [|c a IH]; [reflexivity|].
  cbn [append ends_with_space]. rewrite IH.
  destruct (a ++ b)%string eqn:E; [|reflexivity].
  destruct a; destruct b; simpl in *; discriminate.
Qed.

Lemma join_trimmed_starts :
  forall l, Forall trimmed l -> starts_with_space (join " " l) = false.
Proof.
  unfold join. intros ? [|x l (Hx1 & Hx2 & _) Hl]; [reflexivity|].
  destruct x as [|c x]; [discriminate|].
  destruct l; [exact Hx2|exact Hx2].
Qed.

Lemma join_trimmed_ends :
  forall l, Forall trimmed l -> ends_with_space (join " " l) = false.
Proof.
  unfold join. induction 1 as [|x l (Hx1 & _ & Hx3) Hl IH]; [reflexivity|].
  destruct l as [|y l]; [exact Hx3|].
  cbn [concat]. rewrite ends_append.
  - rewrite (ends_append " "); [exact IH|].
    inversion Hl as [|? ? (Hy & _) _]; subst.
    destruct y; [discriminate|]. destruct l; reflexivity.
  - reflexivity.
Qed.

End StrFacts.

Module SoupFacts.

Import PyStr Soup Shape StrFacts.

Lemma node_induction (P : node -> Prop) :
  (forall s, P (Text s)) ->
  (forall s, P (Comment s)) ->
  (forall nm cs, Forall P cs -> P (Element nm cs)) ->
  forall n, P n.
Proof.
  intros Ht Hc He. fix IH 1. intros [s|s|nm cs].
  - apply Ht.
  - apply Hc.
  - apply He. induction cs as [|c cs IHcs]; constructor.
    + apply IH.
    + exact IHcs.
Qed.

Lemma nodes_of_app (l1 l2 : list node) :
  nodes_of (l1 ++ l2) = nodes_of l1 ++ nodes_of l2.
Proof. apply flat_map_app. Qed.

Lemma decompose_in_clean (names : list string) (n : node) :
  Forall (fun x => is_tag names x = false)
    (nodes_of (decompose_in names n)).
Proof.
  induction n as [s|s|nm cs IH] using node_induction.
  - repeat constructor.
  - repeat constructor.
  - cbn [decompose_in]. destruct (name_in names nm) eqn:Hnm;
      [constructor|].
    unfold nodes_of. cbn [flat_map]. rewrite app_nil_r.
    constructor; [exact Hnm|]. cbn [descendants].
    induction IH as [|c cs Hc _ IHcs]; [constructor|].
    cbn [flat_map]. fold (nodes_of (decompose_in names c ++
      flat_map (decompose_in names) cs)).
    rewrite nodes_of_app. apply Forall_app. split; [exact Hc|exact IHcs].
Qed.

Lemma decompose_all_clean (names : list string) (doc : list node) :
  Forall (fun x => is_tag names x = false)
    (nodes_of (decompose_all names doc)).
Proof.
  unfold decompose_all. induction doc as [|c doc IH]; [constructor|].
  cbn [flat_map]. rewrite nodes_of_app. apply Forall_app.
  split; [apply decompose_in_clean | exact IH].
Qed.

Lemma flat_map_related {A B} (R : A -> A -> Prop) (f : A -> list B)
  (l l' : list A) :
  Forall2 R l l' ->
  Forall (fun x => forall x', R x x' -> f x = f x') l ->
  flat_map f l = flat_map f l'.
Proof.
  induction 1 as [|x x' l l' Hx _ IH]; intros Hall; [reflexivity|].
  inversion Hall; subst. cbn [flat_map]. f_equal; auto.
Qed.

Lemma decompose_in_same (names : list string) (n n' : node) :
  same_outside names n n' ->
  decompose_in names n = decompose_in names n'.
Proof.
  revert n'. induction n as [s|s|nm cs IH] using node_induction;
    intros n' H; inversion H; subst; try reflexivity.
  - cbn [decompose_in]. rewrite H3. reflexivity.
  - cbn [decompose_in]. destruct (name_in names nm); [reflexivity|].
    do 2 f_equal. eapply flat_map_related; eassumption.
Qed.

Lemma decompose_all_same (names : list string) (doc doc' : list node) :
  Forall2 (same_outside names) doc doc' ->
  decompose_all names doc = decompose_all names doc'.
Proof.
  unfold decompose_all. induction 1; cbn [flat_map]; [reflexivity|].
  f_equal; [apply decompose_in_same; assumption | assumption].
Qed.

Lemma stripped_trimmed (n : node) : Forall trimmed (stripped n).
Proof.
  destruct n as [s|s|nm cs]; simpl; try constructor.
  destruct (is_empty (strip s)) eqn:He; constructor; [|constructor].
  split; [exact He|]. split; [apply strip_starts | apply strip_ends].
Qed.

Lemma stripped_strings_trimmed (n : node) :
  Forall trimmed (stripped_strings n).
Proof.
  unfold stripped_strings. induction (descendants n) as [|c l IH];
    [constructor|].
  cbn [flat_map]. apply Forall_app. split; [apply stripped_trimmed|exact IH].
Qed.

End SoupFacts.

(* ================================================================== *)
(** ** The fallback summariser: properties *)
(* ================================================================== *)

Module SummarizerSpec.

Import PyStr Summarizer Order ListFacts HeapqFacts SummarizerFacts.

(** the scenario of the specification: the two sentences with the highest
    scores, in the order of selection *)
Example cats_scenario :
  textrank_summarize
    "Cats are small. Cats are furry. Cats like fish. Dogs bark loudly." 2
  = "Cats are small. Cats are furry.".
Proof. vm_compute. reflexivity. Qed.

(** C10.  When the split of the text yields at most [n_sentences]
    sentences, [textrank_summarize] returns the text unchanged.  The split
    of the empty string is the single empty sentence, so for a positive
    [n_sentences] the empty string comes back. *)
Theorem textrank_short_text_unchanged (text : string) (n_sentences : Z) :
  (Z.of_nat (List.length (split_sentences text)) <= n_sentences ->
   textrank_summarize text n_sentences = text)
  /\ split_sentences EmptyString = [EmptyString]
  /\ (0 < n_sentences ->
      textrank_summarize EmptyString n_sentences = EmptyString).
Proof.
  assert (Hshort : forall t,
    Z.of_nat (List.length (split_sentences t)) <= n_sentences ->
    textrank_summarize t n_sentences = t).
  { intros t Hle. unfold textrank_summarize.
    destruct (Z.leb_spec (Z.of_nat (List.length (split_sentences t)))
                n_sentences); [reflexivity|lia]. }
  split; [apply Hshort|]. split; [reflexivity|].
  intros Hpos. apply Hshort. simpl. lia.
Qed.

Lemma textrank_short_text_unchanged_witness :
  textrank_summarize "One. Two." 4 = "One. Two."
  /\ textrank_summarize EmptyString 4 = EmptyString.
Proof.
  split.
  - apply (proj1 (textrank_short_text_unchanged "One. Two." 4)).
    vm_compute. discriminate.
  - apply (proj2 (proj2 (textrank_short_text_unchanged EmptyString 4))).
    lia.
Defined.

(** C1, as stated, fails: three equal sentences are one key of [scores],
    so with [n_sentences = 2] a single sentence is returned. *)
Lemma textrank_repeated_sentence :
  2 < Z.of_nat (List.length (split_sentences "Go. Go. Go."))
  /\ textrank_summarize "Go. Go. Go." 2 = "Go."
  /\ ~ made_of_n_sentences "Go. Go. Go." 2
         (textrank_summarize "Go. Go. Go." 2).
Proof.
  split; [vm_compute; reflexivity|]. split; [vm_compute; reflexivity|].
  intros (best & Hlen & Hin & Heq).
  assert (Hs : split_sentences "Go. Go. Go." = ["Go."; "Go."; "Go."])
    by (vm_compute; reflexivity).
  rewrite Hs in Hin.
  assert (Hgo : forall s, In s best -> s = "Go.").
  { intros s H. apply Hin in H. simpl in H. intuition. }
  destruct best as [|a [|b [|c best]]]; cbn [List.length] in Hlen;
    try lia.
  rewrite (Hgo a), (Hgo b) in Heq by (simpl; auto).
  vm_compute in Heq. discriminate.
Qed.

(** C1, amended.  When the split yields more than [n_sentences]
    sentences, the summary is the join, with single spaces, of pairwise
    distinct sentences of the split, as many as [n_sentences] allows and
    the split has distinct sentences; so exactly [n_sentences] of them
    when the split has that many distinct sentences. *)
Theorem textrank_selects_distinct_sentences (text : string)
  (n_sentences : Z) :
  n_sentences < Z.of_nat (List.length (split_sentences text)) ->
  exists best,
    textrank_summarize text n_sentences = join " " best
    /\ List.length best
       = Nat.min (Z.to_nat n_sentences)
           (List.length (distinct (split_sentences text)))
    /\ NoDup best
    /\ (forall s, In s best -> In s (split_sentences text))
    /\ (0 <= n_sentences
          <= Z.of_nat (List.length (distinct (split_sentences text))) ->
        Z.of_nat (List.length best) = n_sentences).
Proof.
  intros Hn. exists (firstn (Z.to_nat n_sentences) (ranked text)).
  assert (Hlen : List.length (firstn (Z.to_nat n_sentences) (ranked text))
                 = Nat.min (Z.to_nat n_sentences)
                     (List.length (distinct (split_sentences text)))).
  { rewrite firstn_len, (Permutation_length (ranked_perm text)).
    reflexivity. }
  split; [apply textrank_selected, Hn|]. split; [exact Hlen|].
  split; [|split].
  - apply firstn_NoDup.
    eapply Permutation_NoDup;
      [symmetry; apply ranked_perm | apply distinct_NoDup].
  - intros s Hs. apply firstn_incl in Hs. apply distinct_In.
    eapply Permutation_in; [apply ranked_perm | exact Hs].
  - intros Hb. rewrite Hlen. lia.
Qed.

Lemma textrank_selects_distinct_sentences_witness :
  exists best,
    textrank_summarize "Go. Go. Stop. Go." 3 = join " " best
    /\ List.length best
       = Nat.min (Z.to_nat 3)
           (List.length (distinct (split_sentences "Go. Go. Stop. Go.")))
    /\ NoDup best
    /\ (forall s, In s best -> In s (split_sentences "Go. Go. Stop. Go."))
    /\ (0 <= 3
          <= Z.of_nat
               (List.length (distinct (split_sentences "Go. Go. Stop. Go.")))
        -> Z.of_nat (List.length best) = 3).
Proof.
  apply (textrank_selects_distinct_sentences "Go. Go. Stop. Go." 3).
  vm_compute. reflexivity.
Defined.

(** C5.  When sentences are selected, the summary joins with single
    spaces the first [n_sentences] of the distinct sentences ranked by
    descending score; of two sentences with the same score the one whose
    first occurrence in the text is earlier comes first.  The order is
    that of the ranking, not that of the text. *)
Theorem textrank_score_order (text : string) (n_sentences : Z) :
  n_sentences < Z.of_nat (List.length (split_sentences text)) ->
  let score := sentence_score (word_freq text) in
  let uniq := distinct (split_sentences text) in
  exists ranking,
    textrank_summarize text n_sentences
    = join " " (firstn (Z.to_nat n_sentences) ranking)
    /\ Permutation ranking uniq
    /\ StronglySorted (fun a b => score b <= score a) ranking
    /\ (forall a b,
          before ranking a b -> score a = score b -> before uniq a b).
Proof.
  intros Hn score uniq. exists (ranked text).
  pose proof (sorted_desc_ranked score uniq) as Hs.
  fold (ranked text) in Hs.
  split; [apply textrank_selected, Hn|]. split; [apply ranked_perm|].
  split.
  - eapply sorted_weaken; [|exact Hs].
    intros a b [H|[H _]]; lia.
  - intros a b Hab He.
    destruct (sorted_before _ _ _ _ Hs Hab) as [H|[_ H]]; [lia|exact H].
Qed.

Lemma textrank_score_order_witness :
  textrank_summarize "A b. C c c. D." 2 = "C c c. A b."
  /\ exists ranking,
       textrank_summarize "A b. C c c. D." 2
       = join " " (firstn (Z.to_nat 2) ranking)
       /\ Permutation ranking (distinct (split_sentences "A b. C c c. D."))
       /\ StronglySorted
            (fun a b =>
               sentence_score (word_freq "A b. C c c. D.") b
               <= sentence_score (word_freq "A b. C c c. D.") a) ranking
       /\ (forall a b,
             before ranking a b ->
             sentence_score (word_freq "A b. C c c. D.") a
             = sentence_score (word_freq "A b. C c c. D.") b ->
             before (distinct (split_sentences "A b. C c c. D.")) a b).
Proof.
  split; [vm_compute; reflexivity|].
  apply (textrank_score_order "A b. C c c. D." 2).
  vm_compute. reflexivity.
Defined.

(** C6.  For a positive [n_sentences] the summary is never longer than
    the text. *)
Theorem textrank_never_expands (text : string) (n_sentences : Z) :
  0 < n_sentences ->
  (String.length (textrank_summarize text n_sentences)
   <= String.length text)%nat.
Proof. intros _. apply textrank_length_le. Qed.

Lemma textrank_never_expands_witness :
  (String.length (textrank_summarize "A b. C c c. D." 2)
   <= String.length "A b. C c c. D.")%nat.
Proof. apply (textrank_never_expands "A b. C c c. D." 2). lia. Defined.

End SummarizerSpec.

(* ================================================================== *)
(** ** The extractor: properties *)
(* ================================================================== *)

Module ExtractorSpec.

Import PyStr Soup Shape StrFacts SoupFacts.

(** the scenario of the specification: the navigation is ignored *)
Example hello_scenario :
  extract_from_soup
    [Element "nav" [Text "ignore"];
     Element "article" [Element "p" [Text "Hello world."]]] 20000
  = "Hello world.".
Proof. vm_compute. reflexivity. Qed.

(** C8.  For a positive [max_chars] the extracted text has at most
    [max_chars] characters, on the candidate path and on the body
    fallback. *)
Theorem extract_length_bound (doc : list node) (max_chars : Z) :
  0 < max_chars ->
  Z.of_nat (String.length (extract_from_soup doc max_chars)) <= max_chars.
Proof.
  intros Hm. unfold extract_from_soup.
  destruct (doc_find_all BLOCKS (decompose_all REMOVED doc));
    [destruct (body (decompose_all REMOVED doc))|];
    apply slice_to_length; lia.
Qed.

Lemma extract_length_bound_witness :
  Z.of_nat (String.length (extract_from_soup Sample.one_paragraph 6)) <= 6
  /\ Z.of_nat (String.length (extract_from_soup Sample.bare_body 3)) <= 3.
Proof.
  split.
  - apply (extract_length_bound Sample.one_paragraph 6). lia.
  - apply (extract_length_bound Sample.bare_body 3). lia.
Defined.

(** C3, as stated, fails on both return paths: the body fallback keeps
    the whitespace inside a text node, and the truncation can end right
    after a space. *)
Lemma extract_not_normalized :
  body_fallback Sample.bare_body = true
  /\ extract_from_soup Sample.bare_body 20000 = "a  b"
  /\ normalized (extract_from_soup Sample.bare_body 20000) = false
  /\ body_fallback Sample.one_paragraph = false
  /\ extract_from_soup Sample.one_paragraph 6 = "Hello "
  /\ normalized (extract_from_soup Sample.one_paragraph 6) = false.
Proof. repeat split; vm_compute; reflexivity. Qed.

(** C3, amended.  The extracted text never starts with whitespace; on the
    candidate path it has no two whitespace characters in a row; and
    when it is shorter than [max_chars], so that nothing was cut, it does
    not end with whitespace either.  Hence on the candidate path an
    untruncated result is whitespace-normalised. *)
Theorem extract_whitespace_shape (doc : list node) (max_chars : Z) :
  let out := extract_from_soup doc max_chars in
  starts_with_space out = false
  /\ (body_fallback doc = false -> no_space_run out = true)
  /\ (Z.of_nat (String.length out) < max_chars ->
      ends_with_space out = false)
  /\ (body_fallback doc = false ->
      Z.of_nat (String.length out) < max_chars ->
      normalized out = true).
Proof.
  assert (Hcand : forall s,
    let out := slice_to (strip (collapse_ws s)) max_chars in
    starts_with_space out = false
    /\ no_space_run out = true
    /\ (Z.of_nat (String.length out) < max_chars ->
        ends_with_space out = false)).
  { intros s out. subst out.
    pose proof (cleaned_normalized s) as Hn. unfold normalized in Hn.
    apply andb_prop in Hn as [Hn He]. apply andb_prop in Hn as [Hr Hs].
    apply negb_true_iff in He, Hs.
    destruct (slice_to_prefix (strip (collapse_ws s)) max_chars)
      as [t Ht].
    split; [|split].
    - apply (starts_prefix _ t). rewrite <- Ht. exact Hs.
    - apply (no_space_run_prefix _ t). rewrite <- Ht. exact Hr.
    - intros Hlt. rewrite (slice_to_all _ _ Hlt). exact He. }
  assert (Hbody : forall b,
    let out := slice_to (join " " (stripped_strings b)) max_chars in
    starts_with_space out = false
    /\ (Z.of_nat (String.length out) < max_chars ->
        ends_with_space out = false)).
  { intros b out. subst out.
    pose proof (stripped_strings_trimmed b) as Hb.
    destruct (slice_to_prefix (join " " (stripped_strings b)) max_chars)
      as [t Ht].
    split.
    - apply (starts_prefix _ t). rewrite <- Ht.
      apply join_trimmed_starts, Hb.
    - intros Hlt. rewrite (slice_to_all _ _ Hlt).
      apply join_trimmed_ends, Hb. }
  unfold extract_from_soup, body_fallback.
  destruct (doc_find_all BLOCKS (decompose_all REMOVED doc)) as [|c cs];
    [destruct (body (decompose_all REMOVED doc)) as [b|]|]; cbv zeta.
  - destruct (Hbody b) as [H1 H2].
    repeat split; auto; discriminate.
  - destruct (Hcand (best_text [])) as (H1 & H2 & H3).
    repeat split; auto. intros _ Hlt. unfold normalized.
    rewrite H1, H2, (H3 Hlt). reflexivity.
  - destruct (Hcand (best_text (c :: cs))) as (H1 & H2 & H3).
    repeat split; auto. intros _ Hlt. unfold normalized.
    rewrite H1, H2, (H3 Hlt). reflexivity.
Qed.

Lemma extract_whitespace_shape_witness :
  let out := extract_from_soup Sample.page 20000 in
  out = "Hello world."
  /\ starts_with_space out = false
  /\ no_space_run out = true
  /\ ends_with_space out = false
  /\ normalized out = true.
Proof.
  pose proof (extract_whitespace_shape Sample.page 20000)
    as (H1 & H2 & H3 & H4).
  cbv zeta.
  assert (Hb : body_fallback Sample.page = false)
    by (vm_compute; reflexivity).
  assert (Hlt : Z.of_nat
                  (String.length (extract_from_soup Sample.page 20000))
                < 20000) by (vm_compute; reflexivity).
  split; [vm_compute; reflexivity|].
  split; [exact H1|]. split; [exact (H2 Hb)|].
  split; [exact (H3 Hlt) | exact (H4 Hb Hlt)].
Defined.

(** C7.  Elements of the kinds script, style, noscript, iframe, header,
    footer and nav are taken out of the tree, with everything below them,
    before the candidates are collected and before the body fallback is
    taken: no such element is left in the tree that is searched, and two
    documents that differ only below such elements give the same
    text. *)
Theorem extract_ignores_removed_subtrees (doc doc' : list node)
  (max_chars : Z) :
  Forall2 (same_outside REMOVED) doc doc' ->
  extract_from_soup doc max_chars = extract_from_soup doc' max_chars
  /\ Forall (fun x => is_tag REMOVED x = false)
       (nodes_of (decompose_all REMOVED doc)).
Proof.
  intros Hsame. split; [|apply decompose_all_clean].
  unfold extract_from_soup.
  rewrite (decompose_all_same _ _ _ Hsame). reflexivity.
Qed.

Lemma extract_ignores_removed_subtrees_witness :
  extract_from_soup Sample.page 20000
  = extract_from_soup Sample.page' 20000
  /\ Forall (fun x => is_tag REMOVED x = false)
       (nodes_of (decompose_all REMOVED Sample.page)).
Proof.
  apply (extract_ignores_removed_subtrees Sample.page Sample.page' 20000).
  constructor; [|constructor].
  apply so_element. constructor; [|constructor].
  apply so_element. constructor; [|constructor; [|constructor]].
  - apply so_removed. reflexivity.
  - apply so_element. constructor; [|constructor].
    apply so_element. constructor; [|constructor].
    apply so_text.
Defined.

End ExtractorSpec.

(* ================================================================== *)
(** ** The endpoint: properties *)
(* ================================================================== *)

Module EndpointSpec.

Import PyStr Endpoint Outcome.

Lemma load_globals_available (tok : result tokenizer)
  (model : result seq2seq) :
  fst (fst (load_globals tok model)) = true <->
  exists t m, tok = Return t /\ model = Return m.
Proof.
  destruct tok as [t|e], model as [m|e']; simpl; split;
    try discriminate; try (intros (t' & m' & H1 & H2); discriminate).
  - intros _. exists t, m. split; reflexivity.
  - reflexivity.
Qed.

Lemma hf_unavailable (E : env) (article : string) (lmax lmin : Z) :
  HF_AVAILABLE E = false ->
  hf_summarize E article lmax lmin = Return None.
Proof. intros H. unfold hf_summarize. rewrite H. reflexivity. Qed.

Lemma api_fallback (E : env) (req : request) (article : string) :
  is_empty (request_url req) = false ->
  extract_article_text E (request_url req) 20000 = Return article ->
  is_empty article = false ->
  request_prefer_hf req = true ->
  model_gave_nothing (hf_summarize E article 140 40) = true ->
  api_summarize E req
  = (SummaryBody article
       (Some (Summarizer.textrank_summarize article 4))
       (HF_AVAILABLE E),
     200).
Proof.
  intros Hu Hx Ha Hp Hm. unfold api_summarize.
  rewrite Hu, Hx, Ha, Hp.
  assert (Hf : falsy match hf_summarize E article 140 40 with
                     | Return s => s
                     | Raise _ => None
                     end = true).
  { destruct (hf_summarize E article 140 40); [exact Hm|reflexivity]. }
  rewrite Hf. simpl. destruct (HF_AVAILABLE E); reflexivity.
Qed.

(** C2, as stated, fails: a connection failure is not an
    [HTTPError], and the handler answers it with 500; and a status
    outside 200..299 that is no client or server error does not raise at
    all. *)
Lemma connection_failure_is_500 :
  fetch_failed (requests_get Sample.env_offline "http://example.org/a")
  = true
  /\ snd (api_summarize Sample.env_offline
            (Sample.req "http://example.org/a")) = 500
  /\ snd (api_summarize Sample.env_offline
            (Sample.req "http://example.org/a")) <> 502
  /\ fetch_failed
       (requests_get Sample.env_multiple_choices "http://example.org/a")
     = true
  /\ snd (api_summarize Sample.env_multiple_choices
            (Sample.req "http://example.org/a")) = 200.
Proof.
  split; [reflexivity|]. split; [vm_compute; reflexivity|].
  split; [vm_compute; discriminate|].
  split; [reflexivity | vm_compute; reflexivity].
Qed.

(** C2, amended.  For every request with a URL whose fetch comes back
    with a client or server error status (400 to 599), the endpoint
    responds with status 502. *)
Theorem http_error_status_is_502 (E : env) (req : request)
  (resp : http_response) :
  is_empty (request_url req) = false ->
  requests_get E (request_url req) = Return resp ->
  400 <= status_code resp < 600 ->
  snd (api_summarize E req) = 502.
Proof.
  intros Hu Hget Hst. unfold api_summarize, extract_article_text.
  rewrite Hu, Hget. unfold bind at 1. unfold raise_for_status.
  destruct (Z.leb_spec 400 (status_code resp)); [|lia].
  destruct (Z.ltb_spec (status_code resp) 600); [|lia].
  reflexivity.
Qed.

Lemma http_error_status_is_502_witness :
  snd (api_summarize Sample.env_not_found
         (Sample.req "http://example.org/a")) = 502.
Proof.
  apply (http_error_status_is_502 Sample.env_not_found
           (Sample.req "http://example.org/a")
           {| status_code := 404; text := "Not Found" |}).
  - reflexivity.
  - reflexivity.
  - simpl. lia.
Defined.

(** C4.  In every 200 response [used_hf] is the conjunction of
    [HF_AVAILABLE] and [prefer_hf], whoever produced the summary: when
    the model is loaded and preferred and its call raises or returns
    nothing, the summary is the fallback's and [used_hf] is true. *)
Theorem used_hf_ignores_model_outcome (E : env) (req : request) :
  (forall body,
     api_summarize E req = (body, 200) ->
     exists article summary,
       body = SummaryBody article (Some summary)
                (HF_AVAILABLE E && request_prefer_hf req))
  /\ (forall article,
        is_empty (request_url req) = false ->
        extract_article_text E (request_url req) 20000 = Return article ->
        is_empty article = false ->
        HF_AVAILABLE E = true ->
        request_prefer_hf req = true ->
        model_gave_nothing (hf_summarize E article 140 40) = true ->
        api_summarize E req
        = (SummaryBody article
             (Some (Summarizer.textrank_summarize article 4)) true,
           200)).
Proof.
  split.
  - intros body. unfold api_summarize.
    destruct (is_empty (request_url req)); [discriminate|].
    destruct (extract_article_text E (request_url req) 20000)
      as [article|e]; [|destruct (is_HTTPError e); discriminate].
    destruct (is_empty article); [discriminate|].
    set (s0 := if request_prefer_hf req
               then match hf_summarize E article 140 40 with
                    | Return s => s
                    | Raise _ => None
                    end
               else None).
    intros H. injection H as <-.
    destruct (falsy s0) eqn:Hf.
    + eexists _, _. f_equal. simpl.
      destruct (HF_AVAILABLE E), (request_prefer_hf req); reflexivity.
    + destruct s0 as [s|]; [|discriminate].
      exists article, s. f_equal. simpl.
      destruct (HF_AVAILABLE E), (request_prefer_hf req); reflexivity.
  - intros article Hu Hx Ha Hhf Hp Hm.
    rewrite (api_fallback E req article Hu Hx Ha Hp Hm), Hhf.
    reflexivity.
Qed.

Lemma used_hf_ignores_model_outcome_witness :
  api_summarize Sample.env_model_fails (Sample.req "http://example.org/a")
  = (SummaryBody "Hello world."
       (Some (Summarizer.textrank_summarize "Hello world." 4)) true,
     200).
Proof.
  apply (proj2 (used_hf_ignores_model_outcome Sample.env_model_fails
                  (Sample.req "http://example.org/a")) "Hello world.");
    vm_compute; reflexivity.
Defined.

(** C9.  When the caller prefers the model and the model call raises or
    returns no summary (as it does when no model is loaded), the request
    still succeeds: the response is 200 and its summary is that of the
    fallback summariser. *)
Theorem model_failure_falls_back (E : env) (req : request)
  (article : string) :
  is_empty (request_url req) = false ->
  extract_article_text E (request_url req) 20000 = Return article ->
  is_empty article = false ->
  request_prefer_hf req = true ->
  model_gave_nothing (hf_summarize E article 140 40) = true
  \/ HF_AVAILABLE E = false ->
  api_summarize E req
  = (SummaryBody article
       (Some (Summarizer.textrank_summarize article 4))
       (HF_AVAILABLE E),
     200).
Proof.
  intros Hu Hx Ha Hp [Hm|Hoff]; apply api_fallback; auto.
  rewrite hf_unavailable by exact Hoff. reflexivity.
Qed.

Lemma model_failure_falls_back_witness :
  api_summarize Sample.env_no_model (Sample.req "http://example.org/a")
  = (SummaryBody "Hello world."
       (Some (Summarizer.textrank_summarize "Hello world." 4)) false,
     200).
Proof.
  apply (model_failure_falls_back Sample.env_no_model
           (Sample.req "http://example.org/a") "Hello world.");
    try (vm_compute; reflexivity).
  right. reflexivity.
Defined.

End EndpointSpec.

(* ================================================================== *)
(** ** Cleaning, truncation and the sentence split *)
(* ================================================================== *)

Module TextFacts.

Import PyStr Shape Lexis StrFacts.

Lemma lstrip_id (s : string) :
  starts_with_space s = false -> lstrip s = s.
Proof. destruct s as [|c s]; simpl; [reflexivity|]. intros ->. reflexivity. Qed.

Lemma rstrip_cons (c : ascii) (s : string) :
  rstrip (String c s)
  = if (is_empty (rstrip s) && isspace c)%bool then EmptyString
    else String c (rstrip s).
Proof. reflexivity. Qed.

Lemma rstrip_id (s : string) :
  ends_with_space s = false -> rstrip s = s.
Proof.
  induction s as [|c s IH]; [reflexivity|].
  destruct s as [|d s].
  - simpl. intros ->. reflexivity.
  - intros H. change (ends_with_space (String d s) = false) in H.
    rewrite rstrip_cons, (IH H). reflexivity.
Qed.

Lemma strip_id (s : string) :
  starts_with_space s = false -> ends_with_space s = false ->
  strip s = s.
Proof.
  intros H1 H2. unfold strip. rewrite (lstrip_id _ H1). apply rstrip_id, H2.
Qed.

Lemma single_spaced_cons (c : ascii) (s : string) :
  single_spaced (String c s)
  = ((negb (isspace c)
      || (Ascii.eqb c " " && negb (starts_with_space s)))
     && single_spaced s)%bool.
Proof. reflexivity. Qed.

Lemma single_spaced_tail (c : ascii) (s : string) :
  single_spaced (String c s) = true -> single_spaced s = true.
Proof. rewrite single_spaced_cons. intros H. apply andb_prop in H. apply H. Qed.

Lemma single_spaced_prefix (p t : string) :
  single_spaced (p ++ t)%string = true -> single_spaced p = true.
Proof.
  induction p as [|c p IH]; [reflexivity|].
  cbn [append]. rewrite !single_spaced_cons. intros H.
  apply andb_prop in H as [H1 H2]. rewrite (IH H2), andb_true_r.
  destruct (isspace c); [|reflexivity]. simpl in *.
  destruct (Ascii.eqb c " "); [|discriminate]. simpl in *.
  apply negb_true_iff in H1. rewrite (starts_prefix _ _ H1). reflexivity.
Qed.

Lemma single_spaced_lstrip (s : string) :
  single_spaced s = true -> single_spaced (lstrip s) = true.
Proof.
  induction s as [|c s IH]; intros H; [reflexivity|].
  cbn [lstrip]. destruct (isspace c); [|exact H].
  apply IH. eapply single_spaced_tail, H.
Qed.

Lemma collapse_single_spaced (b : bool) (s : string) :
  single_spaced (collapse_from b s) = true.
Proof.
  revert b. induction s as [|c s IH]; intros b; [reflexivity|].
  cbn [collapse_from]. destruct (isspace c) eqn:Hc.
  - destruct b; [apply IH|].
    rewrite single_spaced_cons, IH, collapse_run_starts. reflexivity.
  - rewrite single_spaced_cons, IH, Hc. reflexivity.
Qed.

Lemma cleaned_single_spaced (s : string) :
  single_spaced (strip (collapse_ws s)) = true.
Proof.
  unfold strip. destruct (rstrip_prefix (lstrip (collapse_ws s))) as [t Ht].
  apply (single_spaced_prefix _ t). rewrite <- Ht.
  apply single_spaced_lstrip, collapse_single_spaced.
Qed.

Lemma collapse_id (b : bool) (s : string) :
  single_spaced s = true ->
  (b = true -> starts_with_space s = false) ->
  collapse_from b s = s.
Proof.
  revert b. induction s as [|c s IH]; intros b Hs Hb; [reflexivity|].
  rewrite single_spaced_cons in Hs. apply andb_prop in Hs as [Hc Hs].
  cbn [collapse_from]. destruct (isspace c) eqn:Hsp.
  - simpl in Hc. apply andb_prop in Hc as [Hc1 Hc2].
    apply Ascii.eqb_eq in Hc1. apply negb_true_iff in Hc2.
    destruct b.
    + specialize (Hb eq_refl). simpl in Hb. congruence.
    + rewrite (IH true Hs (fun _ => Hc2)). subst c. reflexivity.
  - rewrite (IH false Hs); [reflexivity|discriminate].
Qed.

Lemma take_take (n n' : nat) (s : string) :
  (n <= n')%nat -> take n (take n' s) = take n s.
Proof.
  revert n' s. induction n as [|n IH]; intros [|n'] [|c s] H; simpl;
    try reflexivity; try lia.
  f_equal. apply IH. lia.
Qed.

Lemma split_from_cons (m : split_mode) (s : string) :
  exists p ps, split_from m s = p :: ps.
Proof.
  revert m. induction s as [|c s IH]; intros m; simpl.
  - eexists _, _. reflexivity.
  - destruct (isspace c); [destruct m|].
    + destruct (IH Plain) as (p & ps & ->). eexists _, _. reflexivity.
    + eexists _, _. reflexivity.
    + apply IH.
    + destruct (IH (if isterm c then AfterTerm else Plain))
        as (p & ps & ->).
      eexists _, _. reflexivity.
Qed.

Lemma join_cons_head (c : ascii) (p : string) (ps : list string) :
  join " " (cons_head c (p :: ps)) = String c (join " " (p :: ps)).
Proof. unfold join. destruct ps; reflexivity. Qed.

Lemma join_cons_empty (p : string) (ps : list string) :
  join " " (EmptyString :: p :: ps) = String " " (join " " (p :: ps)).
Proof. reflexivity. Qed.

Lemma split_join_from (m : split_mode) (s : string) :
  single_spaced s = true ->
  (m = InDelim -> starts_with_space s = false) ->
  join " " (split_from m s) = s.
Proof.
  revert m. induction s as [|c s IH]; intros m Hs Hm; [reflexivity|].
  rewrite single_spaced_cons in Hs. apply andb_prop in Hs as [Hc Hs].
  cbn [split_from]. destruct (isspace c) eqn:Hsp.
  - simpl in Hc. apply andb_prop in Hc as [Hc1 Hc2].
    apply Ascii.eqb_eq in Hc1. apply negb_true_iff in Hc2.
    destruct m.
    + destruct (split_from_cons Plain s) as (p & ps & Hp).
      specialize (IH Plain Hs). rewrite Hp in *.
      rewrite join_cons_head, IH; [reflexivity|discriminate].
    + destruct (split_from_cons InDelim s) as (p & ps & Hp).
      specialize (IH InDelim Hs (fun _ => Hc2)). rewrite Hp in *.
      rewrite join_cons_empty, IH. subst c. reflexivity.
    + specialize (Hm eq_refl). simpl in Hm. congruence.
  - set (m' := if isterm c then AfterTerm else Plain).
    destruct (split_from_cons m' s) as (p & ps & Hp).
    assert (Hm' : m' = InDelim -> starts_with_space s = false).
    { unfold m'. destruct (isterm c); discriminate. }
    specialize (IH m' Hs Hm'). rewrite Hp in *.
    rewrite join_cons_head, IH. reflexivity.
Qed.

Lemma ends_with_term_cons (c : ascii) (p : string) :
  ends_with_term p = true -> ends_with_term (String c p) = true.
Proof. destruct p; [discriminate|exact (fun H => H)]. Qed.

Lemma split_from_shape (m : split_mode) (s : string) :
  exists p rest,
    split_from m s = p :: rest
    /\ (rest <> [] -> head_closed m p)
    /\ (m = InDelim -> starts_with_space p = false)
    /\ Forall (fun q => ends_with_term q = true) (removelast rest)
    /\ Forall (fun q => starts_with_space q = false) rest.
Proof.
  revert m. induction s as [|c s IH]; intros m.
  - exists EmptyString, []. simpl. repeat split; auto; try tauto.
  - cbn [split_from]. destruct (isspace c) eqn:Hsp; [destruct m|].
    + destruct (IH Plain) as (p & rest & -> & H1 & _ & H3 & H4).
      exists (String c p), rest. simpl. repeat split; auto; try discriminate.
      intros Hr. left. destruct (H1 Hr) as [H|[_ H]]; [|discriminate].
      apply ends_with_term_cons, H.
    + destruct (IH InDelim) as (p & rest & -> & H1 & H2 & H3 & H4).
      exists EmptyString, (p :: rest). repeat split; auto; try discriminate.
      * intros _. right. split; reflexivity.
      * destruct rest as [|q rest]; [constructor|].
        change (removelast (p :: q :: rest))
          with (p :: removelast (q :: rest)).
        constructor; [|exact H3].
        destruct H1 as [H|[_ H]]; [discriminate|exact H|discriminate].
    + destruct (IH InDelim) as (p & rest & -> & H1 & H2 & H3 & H4).
      exists p, rest. repeat split; auto.
    + set (m' := if isterm c then AfterTerm else Plain).
      destruct (IH m') as (p & rest & -> & H1 & _ & H3 & H4).
      exists (String c p), rest. simpl. repeat split; auto.
      intros Hr. left. destruct (H1 Hr) as [H|[-> H]].
      * apply ends_with_term_cons, H.
      * unfold m' in H. simpl. destruct (isterm c); [reflexivity|discriminate].
Qed.

Lemma split_no_term (s : string) :
  all_chars (fun c => negb (isterm c)) s = true ->
  split_from Plain s = [s].
Proof.
  induction s as [|c s IH]; [reflexivity|].
  cbn [all_chars split_from]. intros H. apply andb_prop in H as [Hc Hs].
  apply negb_true_iff in Hc. rewrite Hc, (IH Hs).
  destruct (isspace c); reflexivity.
Qed.

Lemma split_no_space (m : split_mode) (s : string) :
  all_chars (fun c => negb (isspace c)) s = true ->
  split_from m s = [s].
Proof.
  revert m. induction s as [|c s IH]; intros m; [reflexivity|].
  cbn [all_chars split_from]. intros H. apply andb_prop in H as [Hc Hs].
  apply negb_true_iff in Hc. rewrite Hc, (IH _ Hs). reflexivity.
Qed.

Lemma lower_char_alpha (c : ascii) :
  isalpha (lower_char c) = true -> is_lower (lower_char c) = true.
Proof.
  destruct c as [[] [] [] [] [] [] [] []]; vm_compute;
    first [reflexivity | discriminate].
Qed.

Lemma lower_char_space (c : ascii) : isspace (lower_char c) = isspace c.
Proof. destruct c as [[] [] [] [] [] [] [] []]; vm_compute; reflexivity. Qed.

Lemma lower_char_term (c : ascii) : isterm (lower_char c) = isterm c.
Proof. destruct c as [[] [] [] [] [] [] [] []]; vm_compute; reflexivity. Qed.

Lemma space_not_alpha (c : ascii) : isspace c = true -> isalpha c = false.
Proof.
  destruct c as [[] [] [] [] [] [] [] []]; vm_compute;
    first [reflexivity | discriminate].
Qed.

Lemma alpha_runs_lower (s : string) :
  all_chars is_lower (fst (alpha_runs (lower s))) = true
  /\ Forall (fun w => lower_word w = true) (snd (alpha_runs (lower s))).
Proof.
  induction s as [|c s [IH1 IH2]]; [split; [reflexivity|constructor]|].
  cbn [lower alpha_runs].
  destruct (alpha_runs (lower s)) as [r ws]. simpl in IH1, IH2.
  destruct (isalpha (lower_char c)) eqn:Hc; simpl.
  - rewrite (lower_char_alpha _ Hc), IH1. split; [reflexivity|exact IH2].
  - split; [reflexivity|]. unfold push_run.
    destruct r as [|d r]; simpl; [exact IH2|].
    constructor; [|exact IH2]. unfold lower_word. simpl. exact IH1.
Qed.

End TextFacts.

(* ================================================================== *)
(** ** Words, frequencies and scores *)
(* ================================================================== *)

Module ScoreFacts.

Import PyStr Summarizer Order Lexis ListFacts DictFacts HeapqFacts.
Import SummarizerFacts TextFacts.

Lemma push_run_app (r : string) (a b : list string) :
  push_run r (a ++ b) = push_run r a ++ b.
Proof. unfold push_run. destruct (is_empty r); reflexivity. Qed.

Lemma alpha_runs_cons (c : ascii) (s : string) :
  alpha_runs (String c s)
  = if isalpha c
    then (String c (fst (alpha_runs s)), snd (alpha_runs s))
    else (EmptyString, push_run (fst (alpha_runs s)) (snd (alpha_runs s))).
Proof. simpl. destruct (alpha_runs s). reflexivity. Qed.

Lemma findall_runs (s : string) :
  findall_alpha s = push_run (fst (alpha_runs s)) (snd (alpha_runs s)).
Proof. unfold findall_alpha. destruct (alpha_runs s). reflexivity. Qed.

Lemma findall_skip (c : ascii) (s : string) :
  isalpha c = false -> findall_alpha (String c s) = findall_alpha s.
Proof.
  intros Hc. rewrite !findall_runs, alpha_runs_cons, Hc. reflexivity.
Qed.

Lemma runs_cons_head (c : ascii) (p : string) (ps : list string)
  (s : string) :
  alpha_runs s = runs_of_pieces p ps ->
  alpha_runs (String c s) = runs_of_pieces (String c p) ps.
Proof.
  intros H. unfold runs_of_pieces. rewrite !alpha_runs_cons, H.
  unfold runs_of_pieces. simpl.
  destruct (isalpha c); simpl; [reflexivity|].
  rewrite push_run_app. reflexivity.
Qed.

Lemma findall_of_pieces (p : string) (ps : list string) (s : string) :
  alpha_runs s = runs_of_pieces p ps ->
  findall_alpha s = flat_map findall_alpha (p :: ps).
Proof.
  intros H. rewrite findall_runs, H. unfold runs_of_pieces. simpl.
  rewrite push_run_app, <- findall_runs. reflexivity.
Qed.

Lemma findall_split_both (s : string) :
  (forall m, findall_alpha s = flat_map findall_alpha (split_from m s))
  /\ (forall m,
        (m = InDelim -> Shape.starts_with_space s = false) ->
        exists p ps,
          split_from m s = p :: ps
          /\ alpha_runs s = runs_of_pieces p ps).
Proof.
  induction s as [|c s [IHF IHB]].
  - split; [reflexivity|]. intros m _. exists EmptyString, [].
    split; reflexivity.
  - assert (HB : forall m,
      (m = InDelim -> Shape.starts_with_space (String c s) = false) ->
      exists p ps,
        split_from m (String c s) = p :: ps
        /\ alpha_runs (String c s) = runs_of_pieces p ps).
    { intros m Hm. cbn [split_from]. destruct (isspace c) eqn:Hsp.
      - destruct m.
        + destruct (IHB Plain) as (p & ps & Hp & Hr); [discriminate|].
          rewrite Hp. exists (String c p), ps.
          split; [reflexivity | apply runs_cons_head, Hr].
        + exists EmptyString, (split_from InDelim s). split; [reflexivity|].
          rewrite alpha_runs_cons, (space_not_alpha _ Hsp).
          unfold runs_of_pieces. simpl.
          rewrite <- findall_runs, (IHF InDelim). reflexivity.
        + specialize (Hm eq_refl). simpl in Hm. congruence.
      - destruct (IHB (if isterm c then AfterTerm else Plain))
          as (p & ps & Hp & Hr).
        { destruct (isterm c); discriminate. }
        rewrite Hp. exists (String c p), ps.
        split; [reflexivity | apply runs_cons_head, Hr]. }
    split; [|exact HB]. intros m.
    destruct (isspace c) eqn:Hsp; [destruct m|].
    + destruct (HB Plain) as (p & ps & Hp & Hr); [discriminate|].
      rewrite Hp. apply findall_of_pieces, Hr.
    + destruct (HB AfterTerm) as (p & ps & Hp & Hr); [discriminate|].
      rewrite Hp. apply findall_of_pieces, Hr.
    + cbn [split_from]. rewrite Hsp, <- (IHF InDelim).
      apply findall_skip, space_not_alpha, Hsp.
    + destruct (HB m) as (p & ps & Hp & Hr).
      { intros _. simpl. exact Hsp. }
      rewrite Hp. apply findall_of_pieces, Hr.
Qed.

Lemma cons_head_lower (c : ascii) (ps : list string) :
  cons_head (lower_char c) (map lower ps) = map lower (cons_head c ps).
Proof. destruct ps; reflexivity. Qed.

Lemma split_lower (m : split_mode) (s : string) :
  split_from m (lower s) = map lower (split_from m s).
Proof.
  revert m. induction s as [|c s IH]; intros m; [reflexivity|].
  cbn [lower split_from]. rewrite lower_char_space, lower_char_term.
  destruct (isspace c); [destruct m|]; rewrite IH;
    try apply cons_head_lower; reflexivity.
Qed.

Lemma tokens_split (text : string) :
  tokens text = flat_map tokens (split_sentences text).
Proof.
  unfold tokens, split_sentences.
  rewrite (proj1 (findall_split_both (lower text)) Plain), split_lower.
  rewrite flat_map_concat_map, map_map, <- flat_map_concat_map.
  reflexivity.
Qed.

Lemma get_default_set (d : Dict.t Z) (k : string) (v : Z) (k' : string)
  (dflt : Z) :
  Dict.get_default (Dict.set d k v) k' dflt
  = if String.eqb k k' then v else Dict.get_default d k' dflt.
Proof.
  unfold Dict.get_default. rewrite get_set.
  destruct (String.eqb k k'); reflexivity.
Qed.

Lemma count_fold (ws : list string) (d : Dict.t Z) (w : string) :
  Dict.get_default (fold_left count_word ws d) w 0
  = Dict.get_default d w 0 + Z.of_nat (count_occ string_dec ws w).
Proof.
  revert d. induction ws as [|x ws IH]; intros d; [simpl; lia|].
  cbn [fold_left]. rewrite IH. unfold count_word.
  rewrite get_default_set. cbn [count_occ].
  destruct (String.eqb_spec x w) as [->|Hne].
  - destruct (string_dec w w); [lia|congruence].
  - destruct (string_dec x w); [congruence|lia].
Qed.

Lemma count_keys (ws : list string) (d : Dict.t Z) (w : string) :
  In w (Dict.keys (fold_left count_word ws d))
  <-> In w (Dict.keys d) \/ In w ws.
Proof.
  revert d. induction ws as [|x ws IH]; intros d; [simpl; tauto|].
  cbn [fold_left]. rewrite IH. unfold count_word. rewrite keys_set.
  destruct (seen x (Dict.keys d)) eqn:Hx.
  - apply seen_In in Hx. simpl. intuition (subst; auto).
  - rewrite in_app_iff. simpl. intuition (subst; auto).
Qed.

Lemma keys_NoDup_set {V} (d : Dict.t V) (k : string) (v : V) :
  NoDup (Dict.keys d) -> NoDup (Dict.keys (Dict.set d k v)).
Proof.
  intros H. rewrite keys_set. destruct (seen k (Dict.keys d)) eqn:Hk;
    [exact H|].
  apply NoDup_app; [exact H | repeat constructor; intros [] |].
  intros x Hx [<-|[]]. apply seen_In in Hx. congruence.
Qed.

Lemma count_keys_NoDup (ws : list string) (d : Dict.t Z) :
  NoDup (Dict.keys d) -> NoDup (Dict.keys (fold_left count_word ws d)).
Proof.
  revert d. induction ws as [|x ws IH]; intros d H; [exact H|].
  cbn [fold_left]. apply IH, keys_NoDup_set, H.
Qed.

Lemma fold_add_shift (l : list Z) (a : Z) :
  fold_left Z.add l a = a + fold_left Z.add l 0.
Proof.
  revert a. induction l as [|x l IH]; intros a; simpl; [lia|].
  rewrite (IH (a + x)), (IH x). lia.
Qed.

Lemma fold_add_lower (f : string -> Z) (lo : Z) (l : list string) :
  (forall w, In w l -> lo <= f w) ->
  lo * Z.of_nat (List.length l) <= fold_left Z.add (map f l) 0.
Proof.
  induction l as [|x l IH]; intros H; [simpl; lia|].
  cbn [map fold_left List.length]. rewrite fold_add_shift.
  assert (lo <= f x) by (apply H; left; reflexivity).
  assert (lo * Z.of_nat (List.length l)
          <= fold_left Z.add (map f l) 0)
    by (apply IH; intros w Hw; apply H; right; exact Hw).
  lia.
Qed.

Lemma score_nonneg (text s : string) :
  0 <= sentence_score (word_freq text) s.
Proof.
  unfold sentence_score.
  pose proof (fold_add_lower
                (fun w => Dict.get_default (word_freq text) w 0) 0
                (findall_alpha (lower s))) as H.
  simpl in H. apply H. intros w _. unfold word_freq. rewrite count_fold.
  unfold Dict.get_default. simpl. lia.
Qed.

Lemma score_empty (text : string) :
  sentence_score (word_freq text) EmptyString = 0.
Proof. reflexivity. Qed.

Lemma sorted_app_before {A} (R : A -> A -> Prop) (l1 l2 : list A)
  (a b : A) :
  StronglySorted R (l1 ++ l2) -> In a l1 -> In b l2 -> R a b.
Proof.
  intros Hs Ha Hb. apply (sorted_before R (l1 ++ l2)); [exact Hs|].
  apply in_split in Ha as (x & y & ->).
  apply in_split in Hb as (u & v & ->).
  exists x, (y ++ u), v. rewrite <- !app_assoc. reflexivity.
Qed.

Lemma first_piece (text : string) :
  text <> EmptyString ->
  exists p ps, split_sentences text = p :: ps /\ p <> EmptyString.
Proof.
  unfold split_sentences. destruct text as [|c s]; [congruence|].
  intros _. cbn [split_from].
  destruct (isspace c).
  - destruct (split_from_cons Plain s) as (p & ps & ->).
    eexists _, _. split; [reflexivity|discriminate].
  - destruct (split_from_cons (if isterm c then AfterTerm else Plain) s)
      as (p & ps & ->).
    eexists _, _. split; [reflexivity|discriminate].
Qed.

Lemma ranked_head (text : string) :
  text <> EmptyString ->
  exists h t, ranked text = h :: t /\ h <> EmptyString.
Proof.
  intros Hne. destruct (first_piece text Hne) as (p & ps & Hp & Hpne).
  pose proof (sorted_desc_ranked (sentence_score (word_freq text))
                (distinct (split_sentences text))) as Hs.
  pose proof (ranked_perm text) as Hperm.
  pose proof (distinct_NoDup (split_sentences text)) as Hnd.
  fold (ranked text) in Hs. rewrite Hp in *. cbn [distinct] in *.
  set (d' := filter (fun y => negb (String.eqb p y)) (distinct ps)) in *.
  destruct (ranked text) as [|h t].
  - apply Permutation_nil in Hperm. discriminate.
  - exists h, t. split; [reflexivity|]. intros ->.
    assert (Hin : In p (EmptyString :: t)).
    { eapply Permutation_in; [symmetry; exact Hperm|]. left. reflexivity. }
    destruct Hin as [Hin|Hin]; [congruence|].
    apply StronglySorted_inv in Hs as [_ Hall].
    rewrite Forall_forall in Hall.
    destruct (Hall p Hin) as [Hlt|[_ Hb]].
    + pose proof (score_nonneg text p). rewrite score_empty in Hlt. lia.
    + destruct Hb as (l1 & l2 & l3 & Heq).
      inversion Hnd as [|? ? Hnotin _]; subst. apply Hnotin.
      destruct l1 as [|x l1]; simpl in Heq; injection Heq as Hx Hd.
      * congruence.
      * rewrite Hd. apply in_or_app. right. right.
        apply in_or_app. right. left. reflexivity.
Qed.

Lemma join_nonempty (h : string) (rest : list string) :
  h <> EmptyString -> join " " (h :: rest) <> EmptyString.
Proof.
  intros Hh. unfold join. destruct rest; [exact Hh|].
  cbn [concat]. destruct h; [congruence|discriminate].
Qed.

Lemma textrank_nonempty_text (text : string) (n : Z) :
  text <> EmptyString -> 0 < n ->
  textrank_summarize text n <> EmptyString.
Proof.
  intros Hne Hn.
  destruct (Z.leb_spec (Z.of_nat (List.length (split_sentences text))) n)
    as [Hle|Hgt].
  - unfold textrank_summarize.
    destruct (Z.leb_spec (Z.of_nat (List.length (split_sentences text))) n);
      [exact Hne|lia].
  - rewrite (textrank_selected _ _ Hgt).
    destruct (ranked_head text Hne) as (h & t & -> & Hh).
    destruct (Z.to_nat n) as [|k] eqn:Hk; [lia|].
    cbn [firstn]. apply join_nonempty, Hh.
Qed.

End ScoreFacts.

(* ================================================================== *)
(** ** The choice of the candidate and the pruning of the tree *)
(* ================================================================== *)

Module ChoiceFacts.

Import PyStr Soup Shape Lexis StrFacts SoupFacts TextFacts.

Lemma consider_cases (st : string * Z) (c : node) :
  (snd st < plen c /\ consider st c = (paragraph_text c, plen c))
  \/ (plen c <= snd st /\ consider st c = st).
Proof.
  unfold consider, plen.
  destruct (Z.ltb_spec (snd st)
              (Z.of_nat (String.length (paragraph_text c))));
    [left|right]; split; auto.
Qed.

(** the loop keeps [best_len = len(best_text)] *)
Lemma consider_sync (cs : list node) (st : string * Z) :
  snd st = Z.of_nat (String.length (fst st)) ->
  snd (fold_left consider cs st)
  = Z.of_nat (String.length (fst (fold_left consider cs st))).
Proof.
  revert st. induction cs as [|c cs IH]; intros st H; [exact H|].
  cbn [fold_left]. apply IH.
  destruct (consider_cases st c) as [[_ ->]|[_ ->]]; [reflexivity|exact H].
Qed.

Lemma consider_grows (cs : list node) (st : string * Z) :
  snd st <= snd (fold_left consider cs st)
  /\ (forall c, In c cs -> plen c <= snd (fold_left consider cs st))
  /\ (fold_left consider cs st = st
      \/ exists c, In c cs
           /\ fold_left consider cs st = (paragraph_text c, plen c)).
Proof.
  revert st. induction cs as [|c cs IH]; intros st.
  - simpl. split; [lia|]. split; [tauto|]. left. reflexivity.
  - cbn [fold_left]. destruct (IH (consider st c)) as (H1 & H2 & H3).
    destruct (consider_cases st c) as [[Hlt He]|[Hle He]];
      rewrite He in *; cbn [snd] in *.
    + split; [lia|]. split.
      * intros c' [<-|Hc']; [lia|apply H2, Hc'].
      * right. destruct H3 as [H3|(c' & Hc' & H3)].
        -- exists c. split; [left; reflexivity|exact H3].
        -- exists c'. split; [right; exact Hc'|exact H3].
    + split; [lia|]. split.
      * intros c' [<-|Hc']; [lia|apply H2, Hc'].
      * destruct H3 as [H3|(c' & Hc' & H3)]; [left; exact H3|].
        right. exists c'. split; [right; exact Hc'|exact H3].
Qed.

Lemma consider_below (cs : list node) (st : string * Z) (L : Z) :
  snd st < L -> (forall c, In c cs -> plen c < L) ->
  snd (fold_left consider cs st) < L.
Proof.
  revert st. induction cs as [|c cs IH]; intros st Hst Hcs; [exact Hst|].
  cbn [fold_left]. apply IH.
  - destruct (consider_cases st c) as [[_ ->]|[_ ->]]; [|exact Hst].
    apply Hcs. left. reflexivity.
  - intros c' Hc'. apply Hcs. right. exact Hc'.
Qed.

Lemma consider_stays (cs : list node) (st : string * Z) :
  (forall c, In c cs -> plen c <= snd st) ->
  fold_left consider cs st = st.
Proof.
  revert st. induction cs as [|c cs IH]; intros st Hcs; [reflexivity|].
  cbn [fold_left].
  destruct (consider_cases st c) as [[Hlt _]|[_ ->]].
  - specialize (Hcs c (or_introl eq_refl)). lia.
  - apply IH. intros c' Hc'. apply Hcs. right. exact Hc'.
Qed.

Lemma take_empty (n : nat) : take n EmptyString = EmptyString.
Proof. destruct n; reflexivity. Qed.

Lemma slice_to_empty (m : Z) : slice_to EmptyString m = EmptyString.
Proof. unfold slice_to. destruct (m <? 0); apply take_empty. Qed.

Lemma slice_to_slice (s : string) (m m' : Z) :
  0 <= m <= m' -> slice_to (slice_to s m') m = slice_to s m.
Proof.
  intros H. unfold slice_to.
  destruct (Z.ltb_spec m 0); [lia|]. destruct (Z.ltb_spec m' 0); [lia|].
  apply take_take. lia.
Qed.

Lemma decompose_in_twice (names : list string) (n : node) :
  flat_map (decompose_in names) (decompose_in names n)
  = decompose_in names n.
Proof.
  induction n as [s|s|nm cs IH] using node_induction; try reflexivity.
  cbn [decompose_in]. destruct (name_in names nm) eqn:Hnm; [reflexivity|].
  cbn [flat_map decompose_in]. rewrite Hnm, app_nil_r. do 2 f_equal.
  induction IH as [|c cs Hc _ IHcs]; [reflexivity|].
  cbn [flat_map]. rewrite flat_map_app, Hc, IHcs. reflexivity.
Qed.

Lemma decompose_all_twice (names : list string) (doc : list node) :
  decompose_all names (decompose_all names doc) = decompose_all names doc.
Proof.
  unfold decompose_all. induction doc as [|c doc IH]; [reflexivity|].
  cbn [flat_map]. rewrite flat_map_app, decompose_in_twice, IH.
  reflexivity.
Qed.

Lemma lstrip_spaces (s : string) :
  all_chars isspace s = true -> lstrip s = EmptyString.
Proof.
  induction s as [|c s IH]; [reflexivity|].
  cbn [all_chars lstrip]. intros H. apply andb_prop in H as [-> Hs].
  apply IH, Hs.
Qed.

End ChoiceFacts.

(* ================================================================== *)
(** ** The fallback summariser: further properties *)
(* ================================================================== *)

Module SummarizerExtra.

Import PyStr Summarizer Order Shape Lexis.
Import ListFacts HeapqFacts SummarizerFacts TextFacts ScoreFacts.

(** X3.  On a text whose whitespace is single spaces only, the sentence
    split loses nothing: joining the sentences with single spaces gives
    the text back. *)
Theorem split_join_round_trip (text : string) :
  single_spaced text = true ->
  join " " (split_sentences text) = text.
Proof.
  intros H. apply split_join_from; [exact H|discriminate].
Qed.

Lemma split_join_round_trip_witness :
  join " " (split_sentences "One. Two? Three") = "One. Two? Three".
Proof.
  apply (split_join_round_trip "One. Two? Three"). reflexivity.
Defined.

(** X5.  The split never returns an empty list; every sentence but the
    last ends with one of [. ! ?]; and every sentence but the first
    starts with a character that is not whitespace (or is empty, which
    only the last one can be). *)
Theorem split_pieces_shape (text : string) :
  split_sentences text <> []
  /\ Forall (fun q => ends_with_term q = true)
       (removelast (split_sentences text))
  /\ Forall (fun q => starts_with_space q = false)
       (tl (split_sentences text)).
Proof.
  unfold split_sentences.
  destruct (split_from_shape Plain text) as (p & rest & -> & H1 & _ & H3 & H4).
  split; [discriminate|]. split; [|exact H4].
  destruct rest as [|q rest]; [constructor|].
  change (removelast (p :: q :: rest)) with (p :: removelast (q :: rest)).
  constructor; [|exact H3].
  destruct H1 as [H|[_ H]]; [discriminate|exact H|discriminate].
Qed.

(** X6.  A text without any of [. ! ?], or without any whitespace, is a
    single sentence, and every positive [n_sentences] returns it
    unchanged. *)
Theorem unpunctuated_text_unchanged (text : string) (n_sentences : Z) :
  all_chars (fun c => negb (isterm c)) text = true
  \/ all_chars (fun c => negb (isspace c)) text = true ->
  split_sentences text = [text]
  /\ (0 < n_sentences -> textrank_summarize text n_sentences = text).
Proof.
  intros H.
  assert (Hs : split_sentences text = [text]).
  { destruct H as [H|H]; [apply split_no_term | apply split_no_space];
      exact H. }
  split; [exact Hs|]. intros Hn. unfold textrank_summarize. rewrite Hs.
  destruct (Z.leb_spec (Z.of_nat (List.length [text])) n_sentences)
    as [_|Hgt]; [reflexivity|]. simpl in Hgt. lia.
Qed.

Lemma unpunctuated_text_unchanged_witness :
  split_sentences "no full stop here" = ["no full stop here"]
  /\ (0 < 1 -> textrank_summarize "no full stop here" 1
               = "no full stop here").
Proof.
  apply (unpunctuated_text_unchanged "no full stop here" 1).
  left. reflexivity.
Defined.

(** X7.  Every word the summariser counts is a non-empty string of the
    letters a to z. *)
Theorem tokens_are_lower_words (s : string) :
  Forall (fun w => lower_word w = true) (tokens s).
Proof.
  unfold tokens. rewrite findall_runs.
  destruct (alpha_runs_lower s) as [H1 H2]. unfold push_run.
  destruct (fst (alpha_runs (lower s))) as [|c r] eqn:Hr; [exact H2|].
  constructor; [|exact H2]. unfold lower_word. simpl. exact H1.
Qed.

(** X8.  No word straddles two sentences: the words of the text are the
    words of its sentences, sentence after sentence. *)
Theorem tokens_of_text_by_sentence (text : string) :
  tokens text = flat_map tokens (split_sentences text).
Proof. apply tokens_split. Qed.

(** X9.  The frequency table holds, for every word, the number of its
    occurrences among the words of the text; its keys are the words
    that occur, each once. *)
Theorem word_freq_counts (text w : string) :
  Dict.get_default (word_freq text) w 0
  = Z.of_nat (count_occ string_dec (tokens text) w)
  /\ (In w (Dict.keys (word_freq text)) <-> In w (tokens text))
  /\ NoDup (Dict.keys (word_freq text)).
Proof.
  unfold word_freq, tokens. split; [|split].
  - rewrite count_fold. reflexivity.
  - rewrite count_keys. simpl. tauto.
  - apply count_keys_NoDup. constructor.
Qed.

(** X10.  A score is never negative, and the score of a sentence of the
    text is at least the number of its words, each of them occurring in
    the text at least once. *)
Theorem sentence_score_bounds (text s : string) :
  0 <= sentence_score (word_freq text) s
  /\ (In s (split_sentences text) ->
      Z.of_nat (List.length (tokens s))
      <= sentence_score (word_freq text) s).
Proof.
  split; [apply score_nonneg|]. intros Hs. unfold sentence_score.
  fold (tokens s).
  pose proof (fold_add_lower
                (fun w => Dict.get_default (word_freq text) w 0) 1
                (tokens s)) as H.
  rewrite Z.mul_1_l in H. apply H. intros w Hw.
  unfold word_freq. rewrite count_fold. fold (tokens text).
  assert (Hin : In w (tokens text)).
  { rewrite tokens_split. apply in_flat_map. exists s. split; assumption. }
  apply (count_occ_In string_dec) in Hin.
  unfold Dict.get_default. simpl. lia.
Qed.

Lemma sentence_score_bounds_witness :
  Z.of_nat (List.length (tokens "Cats are furry."))
  <= sentence_score (word_freq "Cats are small. Cats are furry.")
       "Cats are furry.".
Proof.
  apply (proj2 (sentence_score_bounds "Cats are small. Cats are furry."
                  "Cats are furry.")).
  vm_compute. right. left. reflexivity.
Defined.

(** X11.  For [n_sentences <= 0] the summary is the empty string,
    whatever the text. *)
Theorem textrank_nothing_requested (text : string) (n_sentences : Z) :
  n_sentences <= 0 ->
  textrank_summarize text n_sentences = EmptyString.
Proof.
  intros Hn. rewrite textrank_selected.
  - replace (Z.to_nat n_sentences) with 0%nat by lia. reflexivity.
  - unfold split_sentences.
    destruct (split_from_cons Plain text) as (p & ps & ->).
    cbn [List.length]. lia.
Qed.

Lemma textrank_nothing_requested_witness :
  textrank_summarize "One. Two." 0 = EmptyString.
Proof. apply (textrank_nothing_requested "One. Two." 0). lia. Defined.

(** X12.  When sentences are selected, no sentence that is left out
    scores higher than one that is selected. *)
Theorem textrank_selected_dominate (text : string) (n_sentences : Z) :
  n_sentences < Z.of_nat (List.length (split_sentences text)) ->
  exists best,
    textrank_summarize text n_sentences = join " " best
    /\ (forall a b,
          In a best -> In b (split_sentences text) -> ~ In b best ->
          sentence_score (word_freq text) b
          <= sentence_score (word_freq text) a).
Proof.
  intros Hn. exists (firstn (Z.to_nat n_sentences) (ranked text)).
  split; [apply textrank_selected, Hn|]. intros a b Ha Hb Hnb.
  pose proof (sorted_desc_ranked (sentence_score (word_freq text))
                (distinct (split_sentences text))) as Hs.
  fold (ranked text) in Hs.
  rewrite <- (firstn_skipn (Z.to_nat n_sentences) (ranked text)) in Hs.
  assert (Hb' : In b (skipn (Z.to_nat n_sentences) (ranked text))).
  { apply distinct_In in Hb.
    apply (Permutation_in _ (Permutation_sym (ranked_perm text))) in Hb.
    rewrite <- (firstn_skipn (Z.to_nat n_sentences) (ranked text)) in Hb.
    apply in_app_or in Hb as [Hb|Hb]; [contradiction|exact Hb]. }
  destruct (sorted_app_before _ _ _ _ _ Hs Ha Hb') as [H|[H _]]; lia.
Qed.

Lemma textrank_selected_dominate_witness :
  exists best,
    textrank_summarize "A b. C c c. D." 2 = join " " best
    /\ (forall a b,
          In a best -> In b (split_sentences "A b. C c c. D.") ->
          ~ In b best ->
          sentence_score (word_freq "A b. C c c. D.") b
          <= sentence_score (word_freq "A b. C c c. D.") a).
Proof.
  apply (textrank_selected_dominate "A b. C c c. D." 2).
  vm_compute. reflexivity.
Defined.

(** X13.  For a non-empty text and a positive [n_sentences] the summary
    is not empty. *)
Theorem textrank_summary_nonempty (text : string) (n_sentences : Z) :
  text <> EmptyString -> 0 < n_sentences ->
  textrank_summarize text n_sentences <> EmptyString.
Proof. apply textrank_nonempty_text. Qed.

Lemma textrank_summary_nonempty_witness :
  textrank_summarize "Go. Go. Stop. " 1 <> EmptyString.
Proof.
  apply (textrank_summary_nonempty "Go. Go. Stop. " 1);
    [discriminate|lia].
Defined.

End SummarizerExtra.

(* ================================================================== *)
(** ** The extractor: further properties *)
(* ================================================================== *)

Module ExtractorExtra.

Import PyStr Soup Shape Lexis StrFacts SoupFacts TextFacts ChoiceFacts.

(** X1.  The cleaning of line 61 is idempotent: a cleaned text is left
    as it is by a second cleaning. *)
Theorem cleaning_idempotent (s : string) :
  let cleaned := strip (collapse_ws s) in
  strip (collapse_ws cleaned) = cleaned.
Proof.
  cbv zeta. unfold collapse_ws at 1.
  rewrite collapse_id;
    [|apply cleaned_single_spaced|discriminate].
  apply strip_id; [apply strip_starts | apply strip_ends].
Qed.

(** X2.  Truncation is by prefix: for [0 <= m <= m'] the text extracted
    with the bound [m] is the text extracted with the bound [m'], cut
    to [m] characters. *)
Theorem extract_truncation_prefix (doc : list node) (m m' : Z) :
  0 <= m <= m' ->
  extract_from_soup doc m = slice_to (extract_from_soup doc m') m.
Proof.
  intros H. unfold extract_from_soup.
  destruct (doc_find_all BLOCKS (decompose_all REMOVED doc));
    [destruct (body (decompose_all REMOVED doc))|];
    rewrite slice_to_slice by exact H; reflexivity.
Qed.

Lemma extract_truncation_prefix_witness :
  extract_from_soup Sample.page 5
  = slice_to (extract_from_soup Sample.page 20000) 5.
Proof. apply (extract_truncation_prefix Sample.page 5 20000). lia. Defined.

(** X4.  A text extracted on the candidate path goes through the
    sentence split without loss: its sentences, joined with single
    spaces, are the text. *)
Theorem extract_then_split_lossless (doc : list node) (max_chars : Z) :
  body_fallback doc = false ->
  join " " (split_sentences (extract_from_soup doc max_chars))
  = extract_from_soup doc max_chars.
Proof.
  assert (Hc : forall s,
    join " " (split_sentences (slice_to (strip (collapse_ws s)) max_chars))
    = slice_to (strip (collapse_ws s)) max_chars).
  { intros s. apply split_join_from; [|discriminate].
    destruct (slice_to_prefix (strip (collapse_ws s)) max_chars) as [t Ht].
    apply (single_spaced_prefix _ t). rewrite <- Ht.
    apply cleaned_single_spaced. }
  unfold body_fallback, extract_from_soup.
  destruct (doc_find_all BLOCKS (decompose_all REMOVED doc));
    [destruct (body (decompose_all REMOVED doc))|]; intros H;
    try discriminate; apply Hc.
Qed.

Lemma extract_then_split_lossless_witness :
  join " " (split_sentences (extract_from_soup Sample.page 20000))
  = extract_from_soup Sample.page 20000.
Proof.
  apply (extract_then_split_lossless Sample.page 20000).
  vm_compute. reflexivity.
Defined.

(** X14.  The text the loop selects is at least as long as the paragraph
    text of every candidate, and it is the paragraph text of one of the
    candidates unless it is empty. *)
Theorem best_text_is_longest (candidates : list node) :
  (forall c, In c candidates ->
     plen c <= Z.of_nat (String.length (best_text candidates)))
  /\ (best_text candidates = EmptyString
      \/ exists c, In c candidates
           /\ best_text candidates = paragraph_text c).
Proof.
  unfold best_text.
  pose proof (consider_sync candidates (EmptyString, 0) eq_refl) as Hsync.
  destruct (consider_grows candidates (EmptyString, 0)) as (_ & H2 & H3).
  split.
  - intros c Hc. rewrite <- Hsync. apply H2, Hc.
  - destruct H3 as [->|(c & Hc & ->)]; [left; reflexivity|].
    right. exists c. split; [exact Hc|reflexivity].
Qed.

(** X15.  Among the candidates with the longest paragraph text the first
    one is selected: a later candidate replaces the selection only when
    its text is strictly longer. *)
Theorem first_longest_candidate_wins (l1 l2 : list node) (c : node) :
  (forall c', In c' l1 -> plen c' < plen c) ->
  (forall c', In c' l2 -> plen c' <= plen c) ->
  0 < plen c ->
  best_text (l1 ++ c :: l2) = paragraph_text c.
Proof.
  intros H1 H2 Hpos. unfold best_text.
  rewrite fold_left_app. cbn [fold_left].
  pose proof (consider_below l1 (EmptyString, 0) (plen c) Hpos H1) as Hb.
  destruct (consider_cases (fold_left consider l1 (EmptyString, 0)) c)
    as [[_ ->]|[Hle _]]; [|lia].
  rewrite consider_stays by exact H2. reflexivity.
Qed.

Lemma first_longest_candidate_wins_witness :
  best_text ([] ++ Sample2.first_block :: [Sample2.second_block]) = "aaa".
Proof.
  apply (first_longest_candidate_wins [] [Sample2.second_block]
           Sample2.first_block).
  - intros c' [].
  - intros c' [<-|[]]. vm_compute. discriminate.
  - vm_compute. reflexivity.
Defined.

(** X16.  When the document has block elements and none of them has a
    paragraph below it, the extracted text is empty, whatever text the
    body holds: the body fallback is taken only when there is no block
    element at all. *)
Theorem blocks_without_paragraphs_give_nothing (doc : list node)
  (max_chars : Z) :
  doc_find_all BLOCKS (decompose_all REMOVED doc) <> [] ->
  (forall c, In c (doc_find_all BLOCKS (decompose_all REMOVED doc)) ->
     find_all ["p"] c = []) ->
  extract_from_soup doc max_chars = EmptyString.
Proof.
  intros Hne Hp. unfold extract_from_soup.
  destruct (doc_find_all BLOCKS (decompose_all REMOVED doc))
    as [|c0 cs] eqn:Hc; [congruence|].
  unfold best_text. rewrite consider_stays.
  - apply slice_to_empty.
  - intros c Hin. unfold plen, paragraph_text. rewrite (Hp c Hin).
    simpl. lia.
Qed.

Lemma blocks_without_paragraphs_give_nothing_witness :
  extract_from_soup Sample2.no_paragraphs 20000 = EmptyString.
Proof.
  apply (blocks_without_paragraphs_give_nothing Sample2.no_paragraphs
           20000).
  - vm_compute. discriminate.
  - vm_compute. intros c [<-|[]]. reflexivity.
Defined.

(** X17.  Removing the elements of the given kinds is idempotent, so a
    document from which they were already removed is extracted like the
    original one. *)
Theorem pruning_idempotent (names : list string) (doc : list node)
  (max_chars : Z) :
  decompose_all names (decompose_all names doc) = decompose_all names doc
  /\ extract_from_soup (decompose_all REMOVED doc) max_chars
     = extract_from_soup doc max_chars.
Proof.
  split; [apply decompose_all_twice|].
  unfold extract_from_soup. rewrite decompose_all_twice. reflexivity.
Qed.

End ExtractorExtra.

(* ================================================================== *)
(** ** The endpoint: further properties *)
(* ================================================================== *)

Module EndpointExtra.

Import PyStr Endpoint Outcome Lexis ChoiceFacts ScoreFacts.

Lemma is_empty_false (s : string) :
  is_empty s = false <-> s <> EmptyString.
Proof. destruct s; simpl; split; congruence. Qed.


(** a page that is fetched and that the parser rejects is answered
    with 500 *)
Example parser_failure_is_500 :
  api_summarize Sample2.env_parser_raises
    (Sample.req "http://example.org/a")
  = (ErrorBody "internal error" (Some "AssertionError"), 500).
Proof. vm_compute. reflexivity. Qed.


(** X19.  When the caller does not prefer the model, the model plays no
    part: the summary is the fallback's and [used_hf] is false, whatever
    is loaded. *)
Theorem fallback_when_not_preferred (E : env) (req : request)
  (article : string) :
  request_url req <> EmptyString ->
  extract_article_text E (request_url req) 20000 = Return article ->
  article <> EmptyString ->
  request_prefer_hf req = false ->
  api_summarize E req
  = (SummaryBody article
       (Some (Summarizer.textrank_summarize article 4)) false,
     200).
Proof.
  intros Hu Hx Ha Hp. apply is_empty_false in Hu, Ha.
  unfold api_summarize. rewrite Hu, Hx, Ha, Hp. simpl.
  rewrite andb_false_r. reflexivity.
Qed.

Lemma fallback_when_not_preferred_witness :
  api_summarize Sample.env_model_fails
    {| url := Some "http://example.org/a"; prefer_hf := Some false |}
  = (SummaryBody "Hello world."
       (Some (Summarizer.textrank_summarize "Hello world." 4)) false,
     200).
Proof.
  apply (fallback_when_not_preferred Sample.env_model_fails
           {| url := Some "http://example.org/a";
              prefer_hf := Some false |} "Hello world.");
    first [discriminate | reflexivity].
Defined.

(** X20.  When the caller prefers the model and the model returns a
    non-empty summary, the response carries that summary unchanged and
    [used_hf] is true. *)
Theorem model_summary_passed_through (E : env) (req : request)
  (article summary : string) :
  request_url req <> EmptyString ->
  extract_article_text E (request_url req) 20000 = Return article ->
  article <> EmptyString ->
  request_prefer_hf req = true ->
  hf_summarize E article 140 40 = Return (Some summary) ->
  summary <> EmptyString ->
  api_summarize E req = (SummaryBody article (Some summary) true, 200).
Proof.
  intros Hu Hx Ha Hp Hm Hs. apply is_empty_false in Hu, Ha, Hs.
  assert (Hav : HF_AVAILABLE E = true).
  { unfold hf_summarize in Hm.
    destruct (HF_AVAILABLE E); [reflexivity|discriminate]. }
  unfold api_summarize. rewrite Hu, Hx, Ha, Hp, Hm. simpl.
  rewrite Hs, Hav. reflexivity.
Qed.

Lemma model_summary_passed_through_witness :
  api_summarize Sample2.env_model_works (Sample.req "http://example.org/a")
  = (SummaryBody "Hello world." (Some "summary") true, 200).
Proof.
  apply (model_summary_passed_through Sample2.env_model_works
           (Sample.req "http://example.org/a") "Hello world." "summary");
    first [discriminate | reflexivity].
Defined.

(** X21.  A 200 response never carries an empty article or an empty
    summary. *)
Theorem ok_response_is_filled (E : env) (req : request) (body : json_body) :
  api_summarize E req = (body, 200) ->
  exists article summary used,
    body = SummaryBody article (Some summary) used
    /\ article <> EmptyString /\ summary <> EmptyString.
Proof.
  unfold api_summarize.
  destruct (is_empty (request_url req)); [discriminate|].
  destruct (extract_article_text E (request_url req) 20000)
    as [article|e]; [|destruct (is_HTTPError e); discriminate].
  destruct (is_empty article) eqn:Ha; [discriminate|].
  apply is_empty_false in Ha.
  set (s0 := if request_prefer_hf req
             then match hf_summarize E article 140 40 with
                  | Return s => s
                  | Raise _ => None
                  end
             else None).
  intros H. injection H as <-.
  destruct (falsy s0) eqn:Hf.
  - eexists _, _, _. split; [reflexivity|]. split; [exact Ha|].
    apply textrank_nonempty_text; [exact Ha|lia].
  - destruct s0 as [s|]; [|discriminate].
    eexists _, _, _. split; [reflexivity|]. split; [exact Ha|].
    apply is_empty_false. exact Hf.
Qed.

Lemma ok_response_is_filled_witness :
  exists article summary used,
    fst (api_summarize Sample.env_no_model
           (Sample.req "http://example.org/a"))
    = SummaryBody article (Some summary) used
    /\ article <> EmptyString /\ summary <> EmptyString.
Proof.
  apply (ok_response_is_filled Sample.env_no_model
           (Sample.req "http://example.org/a")).
  vm_compute. reflexivity.
Defined.



(** X24.  A request without a URL, or with a URL made of whitespace
    only, is answered with 400, whatever the environment. *)
Theorem blank_url_is_400 (E : env) (req : request) :
  url req = None
  \/ (exists u, url req = Some u /\ all_chars isspace u = true) ->
  api_summarize E req = (ErrorBody "no url provided" None, 400).
Proof.
  intros H.
  assert (Hu : request_url req = EmptyString).
  { unfold request_url. destruct H as [->|(u & -> & Hu)]; [reflexivity|].
    unfold strip. rewrite (lstrip_spaces _ Hu). reflexivity. }
  unfold api_summarize. rewrite Hu. reflexivity.
Qed.

Lemma blank_url_is_400_witness :
  api_summarize Sample.env_offline
    {| url := Some "  "; prefer_hf := None |}
  = (ErrorBody "no url provided" None, 400).
Proof.
  apply (blank_url_is_400 Sample.env_offline
           {| url := Some "  "; prefer_hf := None |}).
  right. exists "  ". split; reflexivity.
Defined.

End EndpointExtra.
